(** * MarketResearch: the confidential survey ledger

    A shallow embedding of the [MarketResearch] Solidity contract: the
    per-response records, the ordered id index, the two state-changing
    entry points ([submitResponse], [verifyDecryption]) and the two
    aggregate views ([computeAverage], [computeDistribution]), followed by
    the properties of the ledger's verification state machine. *)

From Stdlib Require Import ZArith List Lia.
From Stdlib Require Strings.Byte.
From stdpp Require Import gmap strings list fin_maps.
Import ListNotations.

Local Open Scope string_scope.
Local Open Scope Z_scope.

(** ** Solidity values *)

(** [type(uint32).max]. *)
Definition uint32_max : Z := 4294967295.

(** A [bytes] value. *)
Abbreviation bytes := (list Byte.byte).

(** Why a call reverts. *)
Inductive Error : Type :=
| Revert (reason : string)      (* [require(cond, reason)] with [cond] false *)
| Panic (code : Z)              (* a check inserted by the compiler *)
| LibraryRevert (callee : string) (* a call into the FHE library reverted *)
| AbiDecodeRevert.              (* [abi.decode] rejected its input *)

(** Panic codes of Solidity 0.8. *)
Definition PANIC_OVERFLOW : Z := 17.       (* 0x11 *)
Definition PANIC_DIV_BY_ZERO : Z := 18.    (* 0x12 *)
Definition PANIC_OUT_OF_BOUNDS : Z := 50.  (* 0x32 *)

Inductive Result (A : Type) : Type :=
| Ok (a : A)
| Err (e : Error).
Arguments Ok {A} a.
Arguments Err {A} e.

Definition rbind {A B} (r : Result A) (k : A -> Result B) : Result B :=
  match r with
  | Ok a => k a
  | Err e => Err e
  end.

(** Checked [uint32] arithmetic, as compiled since Solidity 0.8. *)
Definition add32 (a b : Z) : Result Z :=
  if a + b <=? uint32_max then Ok (a + b) else Err (Panic PANIC_OVERFLOW).

Definition div32 (a b : Z) : Result Z :=
  if b =? 0 then Err (Panic PANIC_DIV_BY_ZERO) else Ok (a / b).

(** The big-endian value of a run of bytes. *)
Definition be_value (bs : bytes) : Z :=
  fold_left (fun acc b => acc * 256 + Z.of_N (Byte.to_N b)) bs 0.

(** [abi.decode(data, (uint32))]: the head is one 32-byte word; shorter data
    reverts, and so does a word that is not a [uint32]. Bytes after the
    first word are not read. *)
Definition abi_decode_uint32 (data : bytes) : option Z :=
  if (length data <? 32)%nat then None
  else
    let w := be_value (firstn 32 data) in
    if w <=? uint32_max then Some w else None.

(** [abi.encode(uint32(v))], used to build payloads. *)
Definition abi_encode_uint32 (v : Z) : bytes :=
  repeat Byte.x00 28 ++
  map (fun k => match Byte.of_N (Z.to_N ((v / 256 ^ k) mod 256)) with
                | Some b => b
                | None => Byte.x00
                end) [3; 2; 1; 0].

(** ** Contract storage *)

Record SurveyResponse : Type := {
  encryptedAnswer : Z;   (* euint32: a bytes32 handle *)
  publicMetadata : Z;    (* uint256 *)
  respondent : Z;        (* address *)
  timestamp : Z;         (* uint256 *)
  decryptedAnswer : Z;   (* uint32 *)
  isVerified : bool
}.

(** What a mapping slot reads as before anything is written to it. *)
Definition zero_response : SurveyResponse := {|
  encryptedAnswer := 0;
  publicMetadata := 0;
  respondent := 0;
  timestamp := 0;
  decryptedAnswer := 0;
  isVerified := false
|}.

Inductive Event : Type :=
| ResponseSubmitted (responseId : string) (respondent : Z)
| ResponseDecrypted (responseId : string) (decryptedAnswer : Z).

(** The storage of the contract, with the log of the two events the
    contract declares (what the FHE library logs is not recorded). *)
Record State : Type := {
  surveyResponses : gmap string SurveyResponse;
  responseIds : list string;
  events : list Event
}.

Definition initial_state : State := {|
  surveyResponses := ∅;
  responseIds := [];
  events := []
|}.

(** [surveyResponses[responseId]] as an rvalue. *)
Definition response_at (s : State) (responseId : string) : SurveyResponse :=
  default zero_response (surveyResponses s !! responseId).

(** [bytes(a).length] for an address [a]. Solidity has no conversion from
    [address] to [bytes], so the expression the contract uses as its
    presence test has no value of its own. The contract is modelled for
    every value it could have: some unsigned length for each address. *)
Class AddressBytes : Type := {
  address_bytes_length : Z -> Z;
  address_bytes_length_nonneg : forall a, 0 <= address_bytes_length a
}.

(** ** The call environment *)

(** What a call sees of its transaction and of the FHE library. The
    library is outside the contract: every entry it calls is taken as
    given, and may differ from one call to the next. [None] and [false]
    stand for a call that reverts. *)
Record Env : Type := {
  msg_sender : Z;
  block_timestamp : Z;
  FHE_fromExternal : Z -> bytes -> option Z;
  FHE_isInitialized : Z -> bool;
  FHE_toBytes32 : Z -> Z;
  FHE_checkSignatures : list Z -> bytes -> bytes -> bool;
  FHE_allowThis : Z -> bool;
  FHE_makePubliclyDecryptable : Z -> bool
}.

(** ** The monad of a state-changing call *)

Definition M (A : Type) : Type := State -> Result (A * State).

Definition ret {A} (a : A) : M A := fun s => Ok (a, s).

Definition bind {A B} (m : M A) (k : A -> M B) : M B :=
  fun s => match m s with
           | Ok (a, s') => k a s'
           | Err e => Err e
           end.

Notation "'do' x <- m ; k" := (bind m (fun x => k))
  (at level 10, x name, m at level 100, k at level 200).
Notation "m ;; k" := (bind m (fun _ => k))
  (at level 100, k at level 200, right associativity).

Definition fail {A} (e : Error) : M A := fun _ => Err e.

Definition require (cond : bool) (reason : string) : M unit :=
  if cond then ret tt else fail (Revert reason).

Definition load (responseId : string) : M SurveyResponse :=
  fun s => Ok (response_at s responseId, s).

Definition store (responseId : string) (r : SurveyResponse) : M unit :=
  fun s => Ok (tt, {| surveyResponses := <[responseId := r]> (surveyResponses s);
                      responseIds := responseIds s;
                      events := events s |}).

Definition push_id (responseId : string) : M unit :=
  fun s => Ok (tt, {| surveyResponses := surveyResponses s;
                      responseIds := responseIds s ++ [responseId];
                      events := events s |}).

Definition emit (ev : Event) : M unit :=
  fun s => Ok (tt, {| surveyResponses := surveyResponses s;
                      responseIds := responseIds s;
                      events := events s ++ [ev] |}).

(** A library call that returns a value or reverts. *)
Definition library {A} (callee : string) (r : option A) : M A :=
  match r with
  | Some a => ret a
  | None => fail (LibraryRevert callee)
  end.

(** A library call that returns nothing or reverts. *)
Definition library_ (callee : string) (ok : bool) : M unit :=
  if ok then ret tt else fail (LibraryRevert callee).

Section Contract.

Context {reading : AddressBytes}.

(** ** The entry points *)

Definition submitResponse (e : Env) (responseId : string) (encryptedAnswer' : Z)
    (inputProof : bytes) (publicMetadata' : Z) : M unit :=
  do r <- load responseId;
  require (address_bytes_length (respondent r) =? 0) "Response already exists" ;;
  do h <- library "FHE.fromExternal" (FHE_fromExternal e encryptedAnswer' inputProof);
  require (FHE_isInitialized e h) "Invalid encrypted input" ;;
  do h' <- library "FHE.fromExternal" (FHE_fromExternal e encryptedAnswer' inputProof);
  store responseId {| encryptedAnswer := h';
                      publicMetadata := publicMetadata';
                      respondent := msg_sender e;
                      timestamp := block_timestamp e;
                      decryptedAnswer := 0;
                      isVerified := false |} ;;
  do r1 <- load responseId;
  library_ "FHE.allowThis" (FHE_allowThis e (encryptedAnswer r1)) ;;
  do r2 <- load responseId;
  library_ "FHE.makePubliclyDecryptable"
           (FHE_makePubliclyDecryptable e (encryptedAnswer r2)) ;;
  push_id responseId ;;
  emit (ResponseSubmitted responseId (msg_sender e)).

Definition verifyDecryption (e : Env) (responseId : string)
    (abiEncodedClearAnswer decryptionProof : bytes) : M unit :=
  do r <- load responseId;
  require (address_bytes_length (respondent r) >? 0) "Response does not exist" ;;
  do r0 <- load responseId;
  require (negb (isVerified r0)) "Response already verified" ;;
  do r1 <- load responseId;
  let cts := [FHE_toBytes32 e (encryptedAnswer r1)] in
  library_ "FHE.checkSignatures"
           (FHE_checkSignatures e cts abiEncodedClearAnswer decryptionProof) ;;
  do decodedAnswer <- (match abi_decode_uint32 abiEncodedClearAnswer with
                       | Some v => ret v
                       | None => fail AbiDecodeRevert
                       end);
  do r2 <- load responseId;
  store responseId {| encryptedAnswer := encryptedAnswer r2;
                      publicMetadata := publicMetadata r2;
                      respondent := respondent r2;
                      timestamp := timestamp r2;
                      decryptedAnswer := decodedAnswer;
                      isVerified := isVerified r2 |} ;;
  do r3 <- load responseId;
  store responseId {| encryptedAnswer := encryptedAnswer r3;
                      publicMetadata := publicMetadata r3;
                      respondent := respondent r3;
                      timestamp := timestamp r3;
                      decryptedAnswer := decryptedAnswer r3;
                      isVerified := true |} ;;
  emit (ResponseDecrypted responseId decodedAnswer).

(** ** The aggregate views *)

(** The loop of [computeAverage] over [responseIds], from index [i] on. *)
Fixpoint average_loop (s : State) (ids : list string) (total count : Z)
    : Result (Z * Z) :=
  match ids with
  | [] => Ok (total, count)
  | id :: rest =>
      if isVerified (response_at s id) then
        rbind (add32 total (decryptedAnswer (response_at s id))) (fun total' =>
        rbind (add32 count 1) (fun count' =>
        average_loop s rest total' count'))
      else average_loop s rest total count
  end.

Definition computeAverage (s : State) : Result Z :=
  rbind (average_loop s (responseIds s) 0 0) (fun tc =>
  let '(total, count) := tc in
  if count >? 0 then div32 total count
  else Err (Revert "No verified responses")).

(** The first loop of [computeDistribution]. *)
Fixpoint max_loop (s : State) (ids : list string) (maxAnswer : Z) : Z :=
  match ids with
  | [] => maxAnswer
  | id :: rest =>
      if isVerified (response_at s id)
         && (decryptedAnswer (response_at s id) >? maxAnswer)
      then max_loop s rest (decryptedAnswer (response_at s id))
      else max_loop s rest maxAnswer
  end.

(** [distribution[bucketIndex]++] on a memory array: the index is checked,
    and so is the increment. *)
Definition increment_at (distribution : list Z) (bucketIndex : Z)
    : Result (list Z) :=
  match distribution !! Z.to_nat bucketIndex with
  | None => Err (Panic PANIC_OUT_OF_BOUNDS)
  | Some c => rbind (add32 c 1) (fun c' =>
              Ok (<[Z.to_nat bucketIndex := c']> distribution))
  end.

(** The second loop of [computeDistribution]. *)
Fixpoint count_loop (s : State) (ids : list string) (bucketSize : Z)
    (distribution : list Z) : Result (list Z) :=
  match ids with
  | [] => Ok distribution
  | id :: rest =>
      if isVerified (response_at s id) then
        rbind (div32 (decryptedAnswer (response_at s id)) bucketSize)
          (fun bucketIndex =>
        rbind (increment_at distribution bucketIndex) (fun distribution' =>
        count_loop s rest bucketSize distribution'))
      else count_loop s rest bucketSize distribution
  end.

Definition computeDistribution (s : State) (bucketSize : Z) : Result (list Z) :=
  let maxAnswer := max_loop s (responseIds s) 0 in
  rbind (div32 maxAnswer bucketSize) (fun q =>
  rbind (add32 q 1) (fun numBuckets =>
  count_loop s (responseIds s) bucketSize (replicate (Z.to_nat numBuckets) 0))).

Definition getAllResponseIds (s : State) : list string := responseIds s.

Definition getEncryptedAnswer (s : State) (responseId : string) : Result Z :=
  if address_bytes_length (respondent (response_at s responseId)) >? 0
  then Ok (encryptedAnswer (response_at s responseId))
  else Err (Revert "Response does not exist").

(** The tuple is (publicMetadata, respondent, timestamp, isVerified,
    decryptedAnswer), in the order of the [returns] clause. *)
Definition getResponse (s : State) (responseId : string)
    : Result (Z * Z * Z * bool * Z) :=
  if address_bytes_length (respondent (response_at s responseId)) >? 0
  then let response := response_at s responseId in
       Ok (publicMetadata response, respondent response, timestamp response,
           isVerified response, decryptedAnswer response)
  else Err (Revert "Response does not exist").

Definition isAvailable : bool := true.

(** ** Transactions *)

Inductive Call : Type :=
| CallSubmit (e : Env) (responseId : string) (encryptedAnswer' : Z)
             (inputProof : bytes) (publicMetadata' : Z)
| CallVerify (e : Env) (responseId : string)
             (abiEncodedClearAnswer decryptionProof : bytes).

Definition exec (c : Call) : M unit :=
  match c with
  | CallSubmit e id h p m => submitResponse e id h p m
  | CallVerify e id a p => verifyDecryption e id a p
  end.


(** A transaction commits what the call did, or nothing when it reverts. *)
Definition transact (s : State) (c : Call) : State :=
  match exec c s with
  | Ok (_, s') => s'
  | Err _ => s
  end.

Definition run (cs : list Call) (s : State) : State := fold_left transact cs s.

(** The states the contract can be in: the ones some sequence of
    transactions leads to from deployment. *)
Definition reachable (s : State) : Prop :=
  exists cs, s = run cs initial_state.



(** ** The error taxonomy of the specification, in the contract's terms *)

Definition DuplicateId : Error := Revert "Response already exists".
Definition InvalidCiphertext : Error := Revert "Invalid encrypted input".
Definition NotFound : Error := Revert "Response does not exist".
Definition AlreadyVerified : Error := Revert "Response already verified".
Definition ProofInvalid : Error := LibraryRevert "FHE.checkSignatures".
Definition NoVerifiedData : Error := Revert "No verified responses".

(** ** The specification's side of the aggregates *)

(** A response is present when the contract's own test finds it. *)
Definition present (s : State) (responseId : string) : bool :=
  address_bytes_length (respondent (response_at s responseId)) >? 0.

(** The plaintexts of the verified responses among [ids], in that order. *)
Definition verified_answers_of (s : State) (ids : list string) : list Z :=
  map decryptedAnswer (List.filter isVerified (map (response_at s) ids)).

(** The plaintexts of the verified responses, in submission order. *)
Definition verified_answers (s : State) : list Z :=
  verified_answers_of s (responseIds s).

Definition sum_answers (l : list Z) : Z := fold_right Z.add 0 l.

Definition max_answer (l : list Z) : Z := fold_right Z.max 0 l.

(** Sum over count, floor division. *)
Definition spec_average (s : State) : Z :=
  sum_answers (verified_answers s) / Z.of_nat (length (verified_answers s)).

(** How many of the plaintexts [l] fall into bucket [i]. *)
Definition bucket_count (bucketSize : Z) (l : list Z) (i : nat) : Z :=
  Z.of_nat (length (List.filter (fun a => a / bucketSize =? Z.of_nat i) l)).

(** Buckets [0 .. floor(max / bucketSize)], each with its count. *)
Definition spec_distribution (s : State) (bucketSize : Z) : list Z :=
  map (bucket_count bucketSize (verified_answers s))
      (seq 0 (Z.to_nat (max_answer (verified_answers s) / bucketSize + 1))).

(** Every listed record holds a [uint32] in [decryptedAnswer], as the
    field's type has it. *)
Definition uint32_answers (s : State) : bool :=
  forallb (fun id => let a := decryptedAnswer (response_at s id) in
                     (0 <=? a) && (a <=? uint32_max))
          (responseIds s).

(** The record of a response that was accepted and not yet revealed. *)
Definition encrypted_record (e : Env) (handle metadata : Z) : SurveyResponse := {|
  encryptedAnswer := handle;
  publicMetadata := metadata;
  respondent := msg_sender e;
  timestamp := block_timestamp e;
  decryptedAnswer := 0;
  isVerified := false
|}.

(** The state a successful submission leaves: one record inserted, the id
    appended to the order, one event. *)
Definition after_submit (e : Env) (id : string) (handle metadata : Z) (s : State)
    : State := {|
  surveyResponses := <[id := encrypted_record e handle metadata]> (surveyResponses s);
  responseIds := responseIds s ++ [id];
  events := events s ++ [ResponseSubmitted id (msg_sender e)]
|}.

(** A record once its plaintext [v] is revealed. *)
Definition verified_record (r : SurveyResponse) (v : Z) : SurveyResponse := {|
  encryptedAnswer := encryptedAnswer r;
  publicMetadata := publicMetadata r;
  respondent := respondent r;
  timestamp := timestamp r;
  decryptedAnswer := v;
  isVerified := true
|}.

(** The state a successful verification leaves. *)
Definition after_verify (id : string) (v : Z) (s : State) : State := {|
  surveyResponses := <[id := verified_record (response_at s id) v]> (surveyResponses s);
  responseIds := responseIds s;
  events := events s ++ [ResponseDecrypted id v]
|}.

(** How many times [id] is listed in [ids]. *)
Definition listings (id : string) (ids : list string) : nat :=
  length (List.filter (String.eqb id) ids).

(** How many calls of [cs], run from [s], are verifications of [id] that
    succeed. *)
Fixpoint verify_successes (id : string) (cs : list Call) (s : State) : nat :=
  match cs with
  | [] => O
  | c :: rest =>
      (match c, exec c s with
       | CallVerify _ id' _ _, Ok _ => if String.eqb id id' then 1 else 0
       | _, _ => 0
       end + verify_successes id rest (transact s c))%nat
  end.


(** The id a call is about. *)
Definition call_id (c : Call) : string :=
  match c with
  | CallSubmit _ id _ _ _ => id
  | CallVerify _ id _ _ => id
  end.

(** The [ResponseSubmitted] events of a log, in order. *)
Definition submitted_events (evs : list Event) : list (string * Z) :=
  omap (fun ev => match ev with
                  | ResponseSubmitted id sender => Some (id, sender)
                  | ResponseDecrypted _ _ => None
                  end) evs.

(** The [ResponseDecrypted] events of a log, in order. *)
Definition decrypted_events (evs : list Event) : list (string * Z) :=
  omap (fun ev => match ev with
                  | ResponseSubmitted _ _ => None
                  | ResponseDecrypted id v => Some (id, v)
                  end) evs.

(** ** What a transaction can do, and what every reachable state satisfies *)

(** The three outcomes of a transaction. *)
Inductive Outcome (s : State) (c : Call) : State -> Prop :=
| Reverted err :
    exec c s = Err err ->
    Outcome s c s
| Submitted e id h p m h' :
    c = CallSubmit e id h p m ->
    present s id = false ->
    FHE_fromExternal e h p = Some h' ->
    FHE_isInitialized e h' = true ->
    exec c s = Ok (tt, after_submit e id h' m s) ->
    Outcome s c (after_submit e id h' m s)
| Verified e id a p v :
    c = CallVerify e id a p ->
    present s id = true ->
    isVerified (response_at s id) = false ->
    FHE_checkSignatures e
      [FHE_toBytes32 e (encryptedAnswer (response_at s id))] a p = true ->
    abi_decode_uint32 a = Some v ->
    exec c s = Ok (tt, after_verify id v s) ->
    Outcome s c (after_verify id v s).

Record ledger_inv (s : State) : Prop := {
  inv_verified_present :
    forall id, isVerified (response_at s id) = true -> present s id = true;
  inv_unverified_zero :
    forall id, isVerified (response_at s id) = false ->
               decryptedAnswer (response_at s id) = 0;
  inv_uint32 :
    forall id, 0 <= decryptedAnswer (response_at s id) <= uint32_max
}.


End Contract.

(** ** Sample runs *)

(** Three values the presence test could have: the length that is empty
    for the zero address only, the twenty bytes every address has, and the
    length that is always empty. *)
Definition sample_reading : AddressBytes := {|
  address_bytes_length := fun a => if a =? 0 then 0 else 20;
  address_bytes_length_nonneg :=
    fun a => match a =? 0 as b return 0 <= (if b then 0 else 20) with
             | true => Z.le_refl 0
             | false => Z.lt_le_incl 0 20 eq_refl
             end
|}.

Definition full_reading : AddressBytes := {|
  address_bytes_length := fun _ => 20;
  address_bytes_length_nonneg := fun _ => Z.lt_le_incl 0 20 eq_refl
|}.

Definition empty_reading : AddressBytes := {|
  address_bytes_length := fun _ => 0;
  address_bytes_length_nonneg := fun _ => Z.le_refl 0
|}.

(** A library that accepts every input whose proof is not empty. *)
Definition sample_env (sender now : Z) : Env := {|
  msg_sender := sender;
  block_timestamp := now;
  FHE_fromExternal := fun h p => match p with [] => None | _ => Some h end;
  FHE_isInitialized := fun h => negb (h =? 0);
  FHE_toBytes32 := fun h => h;
  FHE_checkSignatures := fun _ _ p => match p with [] => false | _ => true end;
  FHE_allowThis := fun _ => true;
  FHE_makePubliclyDecryptable := fun _ => true
|}.

Definition sample_proof : bytes := [Byte.x01].

Definition sample_submit (sender : Z) (id : string) : Call :=
  CallSubmit (sample_env sender 1700000000) id 77 sample_proof 1.

Definition sample_verify (id : string) (v : Z) : Call :=
  CallVerify (sample_env 9 1700000100) id (abi_encode_uint32 v) sample_proof.

(** One response per plaintext of [vs], submitted then verified; the ids
    are "r" followed by as many "x" as the position. *)
Fixpoint sample_ids (n : nat) (id : string) : list string :=
  match n with
  | O => []
  | S n' => id :: sample_ids n' (id ++ "x")%string
  end.

Definition sample_survey (vs : list Z) : State :=
  let ids := sample_ids (length vs) "r" in
  run (reading := sample_reading)
      (map (sample_submit 5) ids ++
       map (fun iv => sample_verify (fst iv) (snd iv)) (combine ids vs))
      initial_state.

Definition sample_calls : list Call :=
  [sample_submit 5 "b"; sample_submit 6 "a"; sample_verify "a" 4;
   sample_submit 7 "b"; sample_submit 7 "c"; sample_verify "b" 2].

Definition survey_one : State :=
  run (reading := sample_reading) [sample_submit 5 "r"] initial_state.
Definition survey_3_5_10 : State := sample_survey [3; 5; 10].
Definition survey_0_4_5_9_12 : State := sample_survey [0; 4; 5; 9; 12].
Definition survey_overflow : State := sample_survey [4294967295; 1].
Definition survey_max : State := sample_survey [4294967295].

(** * Properties *)

Section Properties.

Context {reading : AddressBytes}.

(** ** The entry points, case by case *)

Ltac step_monad :=
  unfold bind, load, store, push_id, emit, require, library, library_, ret, fail.

Lemma response_at_insert_eq s id r ids evs :
  response_at {| surveyResponses := <[id := r]> (surveyResponses s);
                 responseIds := ids; events := evs |} id = r.
Proof. unfold response_at; simpl. by rewrite lookup_insert_eq. Qed.

Lemma present_test s id :
  (address_bytes_length (respondent (response_at s id)) =? 0) = negb (present s id).
Proof.
  unfold present.
  pose proof (address_bytes_length_nonneg (respondent (response_at s id))).
  destruct (Z.eqb_spec (address_bytes_length (respondent (response_at s id))) 0),
           (Z.gtb_spec (address_bytes_length (respondent (response_at s id))) 0);
    simpl; (done || lia).
Qed.

Lemma submitResponse_eq e id h p m s :
  submitResponse e id h p m s =
  if present s id then Err DuplicateId
  else match FHE_fromExternal e h p with
       | None => Err (LibraryRevert "FHE.fromExternal")
       | Some h' =>
           if negb (FHE_isInitialized e h') then Err InvalidCiphertext
           else if negb (FHE_allowThis e h') then Err (LibraryRevert "FHE.allowThis")
           else if negb (FHE_makePubliclyDecryptable e h')
                then Err (LibraryRevert "FHE.makePubliclyDecryptable")
           else Ok (tt, after_submit e id h' m s)
       end.
Proof.
  unfold submitResponse. step_monad. rewrite present_test.
  destruct (present s id); simpl; [done|].
  destruct (FHE_fromExternal e h p) as [h'|]; simpl; [|done].
  destruct (FHE_isInitialized e h'); simpl; [|done].
  rewrite response_at_insert_eq; simpl.
  destruct (FHE_allowThis e h'); simpl; [|done].
  rewrite response_at_insert_eq; simpl.
  by destruct (FHE_makePubliclyDecryptable e h').
Qed.

Lemma verifyDecryption_eq e id a p s :
  verifyDecryption e id a p s =
  if negb (present s id) then Err NotFound
  else if isVerified (response_at s id) then Err AlreadyVerified
  else if negb (FHE_checkSignatures e
                  [FHE_toBytes32 e (encryptedAnswer (response_at s id))] a p)
       then Err ProofInvalid
  else match abi_decode_uint32 a with
       | None => Err AbiDecodeRevert
       | Some v => Ok (tt, after_verify id v s)
       end.
Proof.
  unfold verifyDecryption. step_monad. fold (present s id).
  destruct (present s id); simpl; [|done].
  destruct (isVerified (response_at s id)) eqn:Hv; simpl; [done|].
  destruct (FHE_checkSignatures _ _ _ _); simpl; [|done].
  destruct (abi_decode_uint32 a) as [v|]; simpl; [|done].
  rewrite !response_at_insert_eq; simpl.
  unfold after_verify, verified_record. by rewrite insert_insert_eq.
Qed.

Lemma response_at_after_submit e id h m s id' :
  response_at (after_submit e id h m s) id' =
  if decide (id = id') then encrypted_record e h m else response_at s id'.
Proof.
  unfold response_at, after_submit; simpl. rewrite lookup_insert.
  by case_decide.
Qed.

Lemma response_at_after_verify id v s id' :
  response_at (after_verify id v s) id' =
  if decide (id = id') then verified_record (response_at s id) v
  else response_at s id'.
Proof.
  unfold response_at, after_verify; simpl. rewrite lookup_insert.
  by case_decide.
Qed.

Lemma present_after_submit e id h m s id' :
  present (after_submit e id h m s) id' =
  if decide (id = id') then address_bytes_length (msg_sender e) >? 0
  else present s id'.
Proof.
  unfold present. rewrite response_at_after_submit. by case_decide.
Qed.

Lemma present_after_verify id v s id' :
  present (after_verify id v s) id' = present s id'.
Proof.
  unfold present. rewrite response_at_after_verify. by case_decide; [subst|].
Qed.


Lemma transact_outcome s c : Outcome s c (transact s c).
Proof.
  unfold transact. destruct c as [e id h p m | e id a p]; simpl.
  - pose proof (submitResponse_eq e id h p m s) as E.
    destruct (present s id) eqn:Hp.
    { rewrite E. eapply Reverted. simpl. exact E. }
    destruct (FHE_fromExternal e h p) as [h'|] eqn:Hf.
    2:{ rewrite E. eapply Reverted. simpl. exact E. }
    destruct (FHE_isInitialized e h') eqn:Hi; simpl in E.
    2:{ rewrite E. eapply Reverted. simpl. exact E. }
    destruct (FHE_allowThis e h'); simpl in E.
    2:{ rewrite E. eapply Reverted. simpl. exact E. }
    destruct (FHE_makePubliclyDecryptable e h'); simpl in E.
    2:{ rewrite E. eapply Reverted. simpl. exact E. }
    rewrite E. by eapply Submitted.
  - pose proof (verifyDecryption_eq e id a p s) as E.
    destruct (present s id) eqn:Hp; simpl in E.
    2:{ rewrite E. eapply Reverted. simpl. exact E. }
    destruct (isVerified (response_at s id)) eqn:Hv.
    { rewrite E. eapply Reverted. simpl. exact E. }
    destruct (FHE_checkSignatures _ _ _ _) eqn:Hc; simpl in E.
    2:{ rewrite E. eapply Reverted. simpl. exact E. }
    destruct (abi_decode_uint32 a) as [v|] eqn:Hd.
    2:{ rewrite E. eapply Reverted. simpl. exact E. }
    rewrite E. by eapply Verified.
Qed.

Lemma run_snoc cs c s : run (cs ++ [c]) s = transact (run cs s) c.
Proof. unfold run. by rewrite fold_left_app. Qed.

Lemma run_cons c cs s : run (c :: cs) s = run cs (transact s c).
Proof. reflexivity. Qed.

Lemma submitResponse_Ok e id h p m s s' :
  submitResponse e id h p m s = Ok (tt, s') ->
  present s id = false /\
  exists h', FHE_fromExternal e h p = Some h'
             /\ FHE_isInitialized e h' = true
             /\ FHE_allowThis e h' = true
             /\ FHE_makePubliclyDecryptable e h' = true
             /\ s' = after_submit e id h' m s.
Proof.
  rewrite submitResponse_eq. destruct (present s id); [done|].
  destruct (FHE_fromExternal e h p) as [h'|]; [|done].
  destruct (FHE_isInitialized e h') eqn:Hi; [|done].
  destruct (FHE_allowThis e h') eqn:Ha; [|done].
  destruct (FHE_makePubliclyDecryptable e h') eqn:Hm; [|done]. simpl.
  intros [= <-]. split; [done|]. by exists h'.
Qed.

Lemma verifyDecryption_Ok e id a p s s' :
  verifyDecryption e id a p s = Ok (tt, s') ->
  present s id = true /\ isVerified (response_at s id) = false /\
  FHE_checkSignatures e
    [FHE_toBytes32 e (encryptedAnswer (response_at s id))] a p = true /\
  exists v, abi_decode_uint32 a = Some v /\ s' = after_verify id v s.
Proof.
  rewrite verifyDecryption_eq. destruct (present s id); [|done].
  destruct (isVerified (response_at s id)); [done|].
  destruct (FHE_checkSignatures _ _ _ _) eqn:Hc; [|done]. simpl.
  destruct (abi_decode_uint32 a) as [v|]; [|done].
  intros [= <-]. do 3 (split; [done|]). by exists v.
Qed.

Lemma getResponse_eq s id :
  getResponse s id =
  if present s id
  then Ok (publicMetadata (response_at s id), respondent (response_at s id),
           timestamp (response_at s id), isVerified (response_at s id),
           decryptedAnswer (response_at s id))
  else Err NotFound.
Proof. reflexivity. Qed.

Lemma getEncryptedAnswer_eq s id :
  getEncryptedAnswer s id =
  if present s id then Ok (encryptedAnswer (response_at s id)) else Err NotFound.
Proof. reflexivity. Qed.

(** ** Decoding *)

Lemma be_value_acc_nonneg bs acc :
  0 <= acc ->
  0 <= fold_left (fun acc b => acc * 256 + Z.of_N (Byte.to_N b)) bs acc.
Proof.
  revert acc. induction bs as [|b bs IH]; intros acc Hacc; simpl; [done|].
  apply IH. lia.
Qed.

Lemma abi_decode_uint32_range a v :
  abi_decode_uint32 a = Some v -> 0 <= v <= uint32_max.
Proof.
  unfold abi_decode_uint32. destruct (length a <? 32)%nat; [done|].
  cbv zeta. destruct (be_value (firstn 32 a) <=? uint32_max) eqn:Hle; [|done].
  intros [= <-]. split; [|by apply Z.leb_le].
  apply be_value_acc_nonneg. lia.
Qed.

Example abi_decode_encoded : abi_decode_uint32 (abi_encode_uint32 12) = Some 12.
Proof. reflexivity. Qed.

Example abi_decode_short : abi_decode_uint32 (repeat Byte.x00 31) = None.
Proof. reflexivity. Qed.

Example abi_decode_wide :
  abi_decode_uint32 (repeat Byte.x00 27 ++ [Byte.x01] ++ repeat Byte.x00 4) = None.
Proof. reflexivity. Qed.

Example abi_decode_trailing :
  abi_decode_uint32 (abi_encode_uint32 12 ++ [Byte.xff]) = Some 12.
Proof. reflexivity. Qed.

(** ** The invariant of the ledger *)

Lemma ledger_inv_initial : ledger_inv initial_state.
Proof.
  split; intros id; unfold response_at; simpl; rewrite ?lookup_empty; simpl;
    done.
Qed.

Lemma ledger_inv_transact s c : ledger_inv s -> ledger_inv (transact s c).
Proof.
  intros I. destruct (transact_outcome s c) as [err _ | e id h p m h' _ Hp _ _ _
                                               | e id a p v _ Hp Hv _ Hd _];
    [done | |].
  - split; intros id'; rewrite ?response_at_after_submit.
    + rewrite present_after_submit. case_decide; simpl; [done|]. by apply I.
    + case_decide; simpl; [done|]. by apply I.
    + case_decide; simpl; [unfold uint32_max; lia|]. by apply I.
  - apply abi_decode_uint32_range in Hd.
    split; intros id'; rewrite ?response_at_after_verify.
    + rewrite present_after_verify. case_decide; simpl; [by subst|]. by apply I.
    + case_decide; simpl; [done|]. by apply I.
    + case_decide; simpl; [done|]. by apply I.
Qed.

Lemma ledger_inv_run cs s : ledger_inv s -> ledger_inv (run cs s).
Proof.
  revert s. induction cs as [|c cs IH]; intros s I; [done|].
  rewrite run_cons. apply IH. by apply ledger_inv_transact.
Qed.

Lemma reachable_ledger_inv s : reachable s -> ledger_inv s.
Proof. intros [cs ->]. apply ledger_inv_run, ledger_inv_initial. Qed.




(** ** The verification state machine *)

Lemma unverified_when_absent s id :
  ledger_inv s -> present s id = false ->
  isVerified (response_at s id) = false /\ decryptedAnswer (response_at s id) = 0.
Proof.
  intros I Hp.
  assert (isVerified (response_at s id) = false) as Hv.
  { destruct (isVerified (response_at s id)) eqn:E; [|done].
    apply (inv_verified_present _ I) in E. congruence. }
  split; [done|]. by apply I.
Qed.

(** C1. In every reachable state and for every transaction and response id:
    a verified record keeps its flag and its plaintext; a transaction that
    changes the flag or the plaintext of a record is a successful
    [verifyDecryption] of that id, the flag going from false to true and the
    plaintext being set to the decoded value in the same transaction; and
    right after a successful [submitResponse] the record is unverified with
    plaintext zero. *)
Theorem verified_once_plaintext_write_once (s : State) (c : Call) (id : string) :
  reachable s ->
  let r := response_at s id in
  let r' := response_at (transact s c) id in
  (isVerified r = true ->
   isVerified r' = true /\ decryptedAnswer r' = decryptedAnswer r)
  /\ (isVerified r' <> isVerified r \/ decryptedAnswer r' <> decryptedAnswer r ->
      isVerified r = false /\ isVerified r' = true /\
      exists e a p v,
        c = CallVerify e id a p /\ exec c s = Ok (tt, transact s c) /\
        abi_decode_uint32 a = Some v /\ decryptedAnswer r' = v)
  /\ (forall e h p m s',
        c = CallSubmit e id h p m -> exec c s = Ok (tt, s') ->
        isVerified (response_at s' id) = false /\
        decryptedAnswer (response_at s' id) = 0).
Proof.
  intros Hs r r'. subst r r'. apply reachable_ledger_inv in Hs.
  destruct (transact_outcome s c) as [err Hx | e0 id0 h p m h' Hc Hp _ _ Hx
                                     | e0 id0 a p v Hc Hp Hv _ Hd Hx].
  - split; [done|]. split; [intros [Hq|Hq]; done|].
    intros e h p m s' _ Hq. congruence.
  - rewrite response_at_after_submit. case_decide as Hid.
    + subst id0. destruct (unverified_when_absent s id Hs Hp) as [Hv Hz].
      rewrite Hv, Hz. simpl. split; [done|]. split; [intros [Hq|Hq]; done|].
      intros e h1 p1 m1 s' _ Hq. rewrite Hx in Hq. injection Hq as <-.
      rewrite response_at_after_submit. by rewrite decide_True.
    + split; [done|]. split; [intros [Hq|Hq]; done|].
      intros e h1 p1 m1 s' Hq _. congruence.
  - rewrite response_at_after_verify. case_decide as Hid.
    + subst id0. rewrite Hv. simpl. split; [done|]. split.
      * intros _. split; [done|]. split; [done|]. by exists e0, a, p, v.
      * intros e h1 p1 m1 s' Hq _. congruence.
    + split; [done|]. split; [intros [Hq|Hq]; done|].
      intros e h1 p1 m1 s' Hq _. congruence.
Qed.

Lemma verify_successes_count id cs s :
  ledger_inv s ->
  (verify_successes id cs s + (if isVerified (response_at s id) then 1 else 0)
   = if isVerified (response_at (run cs s) id) then 1 else 0)%nat.
Proof.
  revert s. induction cs as [|c cs IH]; intros s I; [done|].
  rewrite run_cons. cbn [verify_successes].
  pose proof (ledger_inv_transact s c I) as I'. specialize (IH _ I').
  rewrite <- IH. clear IH I'.
  destruct (transact_outcome s c) as [err Hx | e0 id0 h p m h' Hc Hp _ _ Hx
                                     | e0 id0 a p v Hc Hp Hv _ Hd Hx].
  - destruct c; [lia | rewrite Hx; lia].
  - subst c. rewrite response_at_after_submit. case_decide; [|lia].
    subst id0. destruct (unverified_when_absent s id I Hp) as [-> _]. simpl. lia.
  - subst c. rewrite Hx, response_at_after_verify.
    destruct (String.eqb_spec id id0) as [->|Hne].
    + rewrite decide_True by done. rewrite Hv. simpl. lia.
    + rewrite decide_False by done. lia.
Qed.

(** C2. Once the response of [id] is verified, [verifyDecryption] on it
    reverts with "Response already verified", the transaction changes
    nothing (the stored plaintext included), and no sequence of transactions
    from deployment contains more than one successful verification of
    [id]. *)
Theorem second_verify_rejected (s : State) (id : string) (e : Env) (a p : bytes) :
  reachable s ->
  isVerified (response_at s id) = true ->
  verifyDecryption e id a p s = Err AlreadyVerified
  /\ transact s (CallVerify e id a p) = s
  /\ decryptedAnswer (response_at (transact s (CallVerify e id a p)) id)
     = decryptedAnswer (response_at s id)
  /\ forall cs, (verify_successes id cs initial_state <= 1)%nat.
Proof.
  intros Hs Hv. apply reachable_ledger_inv in Hs.
  assert (verifyDecryption e id a p s = Err AlreadyVerified) as E.
  { rewrite verifyDecryption_eq, (inv_verified_present _ Hs id Hv), Hv. done. }
  assert (transact s (CallVerify e id a p) = s) as T.
  { unfold transact; simpl. by rewrite E. }
  split; [done|]. split; [done|]. split; [by rewrite T|].
  intros cs. pose proof (verify_successes_count id cs _ ledger_inv_initial) as Hn.
  destruct (isVerified (response_at (run cs initial_state) id)); lia.
Qed.

(** ** Submission *)


(** ** Verification *)


(** ** The order of the ids *)





(** ** The average *)

Lemma verified_answers_of_cons s id ids :
  verified_answers_of s (id :: ids) =
  if isVerified (response_at s id)
  then decryptedAnswer (response_at s id) :: verified_answers_of s ids
  else verified_answers_of s ids.
Proof.
  unfold verified_answers_of; simpl.
  by destruct (isVerified (response_at s id)).
Qed.

Lemma uint32_answers_range s ids :
  forallb (fun id => let a := decryptedAnswer (response_at s id) in
                     (0 <=? a) && (a <=? uint32_max)) ids = true ->
  Forall (fun x => 0 <= x <= uint32_max) (verified_answers_of s ids).
Proof.
  induction ids as [|id ids IH]; simpl; intros H.
  { constructor. }
  apply andb_true_iff in H as [H1 H2]. apply andb_true_iff in H1 as [Ha Hb].
  rewrite verified_answers_of_cons.
  destruct (isVerified (response_at s id)); [|by apply IH].
  constructor; [lia | by apply IH].
Qed.

Lemma uint32_answers_verified s :
  uint32_answers s = true ->
  Forall (fun x => 0 <= x <= uint32_max) (verified_answers s).
Proof. apply uint32_answers_range. Qed.

Lemma reachable_uint32_answers s : reachable s -> uint32_answers s = true.
Proof.
  intros Hs%reachable_ledger_inv. unfold uint32_answers.
  apply forallb_forall. intros id _. cbv zeta.
  pose proof (inv_uint32 _ Hs id). apply andb_true_iff. split; lia.
Qed.

Lemma sum_answers_nonneg l :
  Forall (fun x => 0 <= x <= uint32_max) l -> 0 <= sum_answers l.
Proof. induction 1; simpl; lia. Qed.

Ltac case_leb :=
  repeat match goal with
         | |- context [?a <=? ?b] => destruct (Z.leb_spec a b); simpl
         end.

Lemma average_loop_spec s ids total count :
  Forall (fun x => 0 <= x <= uint32_max) (verified_answers_of s ids) ->
  total <= uint32_max -> count <= uint32_max ->
  average_loop s ids total count =
  if (total + sum_answers (verified_answers_of s ids) <=? uint32_max)
     && (count + Z.of_nat (length (verified_answers_of s ids)) <=? uint32_max)
  then Ok (total + sum_answers (verified_answers_of s ids),
           count + Z.of_nat (length (verified_answers_of s ids)))
  else Err (Panic PANIC_OVERFLOW).
Proof.
  revert total count. induction ids as [|id ids IH]; intros total count.
  { intros _ Ht Hc. unfold verified_answers_of; simpl. rewrite !Z.add_0_r.
    case_leb; try done; lia. }
  rewrite verified_answers_of_cons. cbn [average_loop].
  destruct (isVerified (response_at s id)); [|by apply IH].
  intros H Ht Hc. inversion H as [|x l Hx Hl]; subst.
  pose proof (sum_answers_nonneg _ Hl) as Hs.
  set (x := decryptedAnswer (response_at s id)) in *.
  unfold add32 at 1. destruct (Z.leb_spec (total + x) uint32_max); simpl.
  - unfold add32 at 1. destruct (Z.leb_spec (count + 1) uint32_max); simpl.
    + rewrite IH by done.
      replace (total + x + sum_answers (verified_answers_of s ids))
        with (total + (x + sum_answers (verified_answers_of s ids))) by lia.
      replace (count + 1 + Z.of_nat (length (verified_answers_of s ids)))
        with (count + Z.pos (Pos.of_succ_nat (length (verified_answers_of s ids))))
        by lia.
      done.
    + case_leb; try done; lia.
  - case_leb; try done; lia.
Qed.

Lemma computeAverage_spec s :
  Forall (fun x => 0 <= x <= uint32_max) (verified_answers s) ->
  computeAverage s =
  if (sum_answers (verified_answers s) <=? uint32_max)
     && (Z.of_nat (length (verified_answers s)) <=? uint32_max)
  then match verified_answers s with
       | [] => Err NoVerifiedData
       | _ :: _ => Ok (spec_average s)
       end
  else Err (Panic PANIC_OVERFLOW).
Proof.
  intros Hu. unfold computeAverage, spec_average.
  rewrite average_loop_spec by (done || (unfold uint32_max; lia)).
  fold (verified_answers s). rewrite !Z.add_0_l.
  destruct (_ && _); [|done]. simpl.
  destruct (verified_answers s) as [|x l]; [done|].
  cbn [length]. destruct (Z.gtb_spec (Z.of_nat (S (length l))) 0); [|lia].
  unfold div32. destruct (Z.eqb_spec (Z.of_nat (S (length l))) 0); [lia|done].
Qed.

(** C5 (as amended). When the verified plaintexts sum to at most
    [type(uint32).max] and are at most that many, [computeAverage] reverts
    with "No verified responses" if there is none and otherwise returns
    their sum divided by their count, rounded down. *)
Theorem average_of_verified (s : State) :
  uint32_answers s = true ->
  sum_answers (verified_answers s) <= uint32_max ->
  Z.of_nat (length (verified_answers s)) <= uint32_max ->
  computeAverage s =
  match verified_answers s with
  | [] => Err NoVerifiedData
  | _ :: _ => Ok (sum_answers (verified_answers s)
                  / Z.of_nat (length (verified_answers s)))
  end.
Proof.
  intros Hu Hs Hn. rewrite computeAverage_spec by by apply uint32_answers_verified.
  apply Z.leb_le in Hs, Hn. by rewrite Hs, Hn.
Qed.

(** C9. The sum of [computeAverage] is accumulated in checked [uint32]
    arithmetic: when the verified plaintexts sum to more than
    [type(uint32).max] the call reverts with the overflow panic, and
    whenever it returns a value the sum fits in 32 bits and the value is the
    sum over the count, rounded down. *)
Theorem average_reverts_on_sum_overflow (s : State) :
  uint32_answers s = true ->
  (uint32_max < sum_answers (verified_answers s) ->
   computeAverage s = Err (Panic PANIC_OVERFLOW))
  /\ (forall v, computeAverage s = Ok v ->
      sum_answers (verified_answers s) <= uint32_max /\ v = spec_average s).
Proof.
  intros Hu. rewrite computeAverage_spec by by apply uint32_answers_verified.
  split.
  - intros Hs. destruct (Z.leb_spec (sum_answers (verified_answers s)) uint32_max);
      [lia | done].
  - intros v. destruct (Z.leb_spec (sum_answers (verified_answers s)) uint32_max);
      [|done].
    destruct (_ <=? _); [|done]. simpl.
    destruct (verified_answers s); [done|]. by intros [= <-].
Qed.

(** ** The distribution *)

Lemma max_answer_nonneg l : 0 <= max_answer l.
Proof. induction l; simpl; lia. Qed.

Lemma max_answer_ge l x : x ∈ l -> x <= max_answer l.
Proof.
  induction l as [|y l IH]; intros H.
  { by apply elem_of_nil in H. }
  apply elem_of_cons in H as [->|H]; simpl; [lia|].
  specialize (IH H). lia.
Qed.

Lemma max_loop_spec s ids acc :
  0 <= acc ->
  max_loop s ids acc = Z.max acc (max_answer (verified_answers_of s ids)).
Proof.
  revert acc. induction ids as [|id ids IH]; intros acc Hacc.
  { unfold verified_answers_of; simpl. lia. }
  rewrite verified_answers_of_cons. cbn [max_loop].
  pose proof (max_answer_nonneg (verified_answers_of s ids)) as Hm.
  destruct (isVerified (response_at s id)); simpl; [|by apply IH].
  destruct (Z.gtb_spec (decryptedAnswer (response_at s id)) acc).
  - rewrite IH by lia. lia.
  - rewrite IH by lia. lia.
Qed.

Lemma bucket_count_cons bs x l i :
  bucket_count bs (x :: l) i =
  (if x / bs =? Z.of_nat i then 1 else 0) + bucket_count bs l i.
Proof.
  unfold bucket_count; simpl. destruct (x / bs =? Z.of_nat i); simpl; lia.
Qed.

Lemma bucket_count_range bs l i :
  0 <= bucket_count bs l i <= Z.of_nat (length l).
Proof.
  induction l as [|x l IH].
  { unfold bucket_count; simpl. lia. }
  rewrite bucket_count_cons. destruct (_ =? _); simpl length; lia.
Qed.

Lemma count_loop_spec s ids bs d :
  0 < bs ->
  Forall (fun x => 0 <= x /\ (Z.to_nat (x / bs) < length d)%nat)
         (verified_answers_of s ids) ->
  (forall i c, d !! i = Some c ->
               c + bucket_count bs (verified_answers_of s ids) i <= uint32_max) ->
  exists d',
    count_loop s ids bs d = Ok d'
    /\ length d' = length d
    /\ forall i c, d !! i = Some c ->
                   d' !! i = Some (c + bucket_count bs (verified_answers_of s ids) i).
Proof.
  intros Hbs. revert d. induction ids as [|id ids IH]; intros d Hx Hc.
  { exists d. split; [done|]. split; [done|]. intros i c Hi.
    unfold verified_answers_of, bucket_count; simpl. by rewrite Z.add_0_r. }
  rewrite verified_answers_of_cons in *. cbn [count_loop].
  destruct (isVerified (response_at s id)); [|by apply IH].
  set (x := decryptedAnswer (response_at s id)) in *.
  inversion Hx as [|x0 l [Hx0 Hlt] Hl]; subst.
  unfold div32. destruct (Z.eqb_spec bs 0); [lia|]. simpl.
  assert (0 <= x / bs) as Hq by (apply Z.div_pos; lia).
  unfold increment_at.
  destruct (lookup_lt_is_Some_2 d _ Hlt) as [c Hlk]. rewrite Hlk.
  pose proof (Hc _ _ Hlk) as Hb. rewrite bucket_count_cons in Hb.
  rewrite Z2Nat.id, Z.eqb_refl in Hb by done.
  pose proof (bucket_count_range bs (verified_answers_of s ids) (Z.to_nat (x / bs))).
  unfold add32. destruct (Z.leb_spec (c + 1) uint32_max); [|lia]. simpl.
  destruct (IH (<[Z.to_nat (x / bs) := c + 1]> d)) as [d' [E [Hlen Hd']]].
  - rewrite length_insert. done.
  - intros i c' Hi. destruct (decide (i = Z.to_nat (x / bs))) as [->|Hne].
    + rewrite list_lookup_insert_eq in Hi by done. injection Hi as <-. lia.
    + rewrite list_lookup_insert_ne in Hi by done.
      specialize (Hc _ _ Hi). rewrite bucket_count_cons in Hc.
      destruct (Z.eqb_spec (x / bs) (Z.of_nat i)); lia.
  - exists d'. split; [done|]. split; [by rewrite Hlen, length_insert|].
    intros i c' Hi. rewrite bucket_count_cons.
    destruct (decide (i = Z.to_nat (x / bs))) as [->|Hne].
    + rewrite Z2Nat.id, Z.eqb_refl by done.
      assert (c' = c) as -> by congruence.
      rewrite (Hd' _ (c + 1)) by (by apply list_lookup_insert_eq).
      f_equal. lia.
    + destruct (Z.eqb_spec (x / bs) (Z.of_nat i)); [lia|].
      rewrite (Hd' _ c') by (by rewrite list_lookup_insert_ne).
      f_equal.
Qed.

Lemma spec_distribution_lookup s bs i :
  (i < Z.to_nat (max_answer (verified_answers s) / bs + 1))%nat ->
  spec_distribution s bs !! i = Some (bucket_count bs (verified_answers s) i).
Proof.
  intros Hi. unfold spec_distribution.
  rewrite list_lookup_fmap, lookup_seq_lt by done. done.
Qed.

Lemma computeDistribution_spec s bs :
  Forall (fun x => 0 <= x <= uint32_max) (verified_answers s) ->
  0 < bs ->
  max_answer (verified_answers s) / bs + 1 <= uint32_max ->
  Z.of_nat (length (verified_answers s)) <= uint32_max ->
  computeDistribution s bs = Ok (spec_distribution s bs).
Proof.
  intros Hu Hbs Hmax Hlen. unfold computeDistribution.
  rewrite max_loop_spec by done. fold (verified_answers s).
  pose proof (max_answer_nonneg (verified_answers s)) as Hm.
  rewrite Z.max_r by done.
  unfold div32. destruct (Z.eqb_spec bs 0); [lia|]. simpl.
  set (q := max_answer (verified_answers s) / bs) in *.
  assert (0 <= q) as Hq by (apply Z.div_pos; lia).
  unfold add32. destruct (Z.leb_spec (q + 1) uint32_max); [|lia]. simpl.
  destruct (count_loop_spec s (responseIds s) bs (replicate (Z.to_nat (q + 1)) 0))
    as [d [E [Hl Hd]]]; [done | | |].
  - fold (verified_answers s). rewrite length_replicate.
    apply Forall_forall. intros x Hx.
    pose proof (max_answer_ge _ _ Hx) as Hle.
    rewrite Forall_forall in Hu. specialize (Hu _ Hx).
    split; [lia|].
    assert (0 <= x / bs) by (apply Z.div_pos; lia).
    assert (x / bs <= q) by (apply Z.div_le_mono; lia).
    lia.
  - intros i c [-> _]%lookup_replicate. fold (verified_answers s).
    pose proof (bucket_count_range bs (verified_answers s) i). lia.
  - rewrite E. f_equal. fold (verified_answers s) in Hd.
    rewrite length_replicate in Hl.
    apply list_eq. intros i. destruct (decide (i < Z.to_nat (q + 1))%nat) as [Hi|Hi].
    + rewrite spec_distribution_lookup by done.
      by rewrite (Hd i 0) by (by apply lookup_replicate_2).
    + rewrite !lookup_ge_None_2; [done | |lia].
      unfold spec_distribution. rewrite length_map, length_seq. fold q. lia.
Qed.

(** C6 (as amended). For every [bucketSize > 0] such that
    [floor(max / bucketSize) + 1] is at most [type(uint32).max], with at
    most that many verified responses, [computeDistribution] returns a
    sequence of length [floor(max / bucketSize) + 1] whose entry [i] is the
    number of verified plaintexts [a] with [floor(a / bucketSize) = i],
    where [max] is the largest verified plaintext (0 if there is none). *)
Theorem distribution_of_verified (s : State) (bucketSize : Z) :
  uint32_answers s = true ->
  0 < bucketSize ->
  max_answer (verified_answers s) / bucketSize + 1 <= uint32_max ->
  Z.of_nat (length (verified_answers s)) <= uint32_max ->
  exists d,
    computeDistribution s bucketSize = Ok d
    /\ d = spec_distribution s bucketSize
    /\ Z.of_nat (length d) = max_answer (verified_answers s) / bucketSize + 1
    /\ forall i, (i < length d)%nat ->
         d !! i = Some (bucket_count bucketSize (verified_answers s) i).
Proof.
  intros Hu Hbs Hmax Hlen. exists (spec_distribution s bucketSize).
  split; [by apply computeDistribution_spec; [apply uint32_answers_verified|..]|].
  split; [done|].
  pose proof (max_answer_nonneg (verified_answers s)) as Hm.
  assert (0 <= max_answer (verified_answers s) / bucketSize)
    by (apply Z.div_pos; lia).
  assert (length (spec_distribution s bucketSize)
          = Z.to_nat (max_answer (verified_answers s) / bucketSize + 1)) as Hl.
  { unfold spec_distribution. by rewrite length_map, length_seq. }
  split; [rewrite Hl; lia|].
  intros i Hi. apply spec_distribution_lookup. by rewrite <- Hl.
Qed.

(** C7 (what the code does at the failing input). With bucket size 0
    [computeDistribution] reverts in every state with the division-by-zero
    panic of the compiler, not with a [require] of the contract. *)
Theorem distribution_zero_bucket_panics (s : State) :
  computeDistribution s 0 = Err (Panic PANIC_DIV_BY_ZERO)
  /\ forall reason, computeDistribution s 0 <> Err (Revert reason).
Proof.
  assert (computeDistribution s 0 = Err (Panic PANIC_DIV_BY_ZERO)) as E by done.
  split; [exact E|]. intros reason. rewrite E. discriminate.
Qed.

(** C10. For every [bucketSize > 0], in a state without verified responses
    [computeDistribution] returns the one-element sequence [0], while
    [computeAverage] reverts with "No verified responses". *)
Theorem distribution_without_verified (s : State) (bucketSize : Z) :
  0 < bucketSize ->
  verified_answers s = [] ->
  computeDistribution s bucketSize = Ok [0]
  /\ computeAverage s = Err NoVerifiedData.
Proof.
  intros Hbs Hnil. split.
  - rewrite computeDistribution_spec.
    + unfold spec_distribution. rewrite Hnil. reflexivity.
    + rewrite Hnil. constructor.
    + done.
    + rewrite Hnil. simpl. rewrite Z.div_0_l by lia. unfold uint32_max. lia.
    + rewrite Hnil. simpl. unfold uint32_max. lia.
  - rewrite computeAverage_spec by (rewrite Hnil; constructor).
    by rewrite Hnil.
Qed.

(** * Further properties of the contract *)

(** ** The getters *)

(** X1. What a successful submission stored is what the getters return:
    right after it, [getResponse] answers exactly when the presence test
    accepts the sender, any answer is (the metadata given, the sender, the
    block timestamp, unverified, plaintext 0), and any answer of
    [getEncryptedAnswer] is the handle [FHE.fromExternal] produced for the
    input. *)
Theorem getters_after_submit
    (s s' : State) (e : Env) (id : string) (h : Z) (p : bytes) (m : Z) :
  submitResponse e id h p m s = Ok (tt, s') ->
  (forall r, getResponse s' id = Ok r ->
             r = (m, msg_sender e, block_timestamp e, false, 0))
  /\ (forall h', getEncryptedAnswer s' id = Ok h' ->
                 FHE_fromExternal e h p = Some h')
  /\ ((exists r, getResponse s' id = Ok r)
      <-> 0 < address_bytes_length (msg_sender e)).
Proof.
  intros Hok. apply submitResponse_Ok in Hok as [_ [h' [Hf [_ [_ [_ ->]]]]]].
  rewrite getResponse_eq, getEncryptedAnswer_eq, present_after_submit.
  rewrite decide_True, response_at_after_submit, decide_True by done. simpl.
  destruct (Z.gtb_spec (address_bytes_length (msg_sender e)) 0).
  - split; [by intros r [= <-]|]. split; [by intros h0 [= <-]|].
    split; [done | eauto].
  - split; [done|]. split; [done|]. split; [by intros [r ?] | lia].
Qed.

(** X2. The four functions agree on which ids exist: in every state,
    [getResponse] answers for an id exactly when [getEncryptedAnswer] does
    and exactly when [submitResponse] rejects the id with "Response already
    exists"; and it reverts with "Response does not exist" exactly when
    [verifyDecryption] does. *)
Theorem presence_test_is_shared
    (s : State) (e : Env) (id : string) (h : Z) (p a pr : bytes) (m : Z) :
  ((exists r, getResponse s id = Ok r) <-> (exists h', getEncryptedAnswer s id = Ok h'))
  /\ ((exists r, getResponse s id = Ok r)
      <-> submitResponse e id h p m s = Err DuplicateId)
  /\ (getResponse s id = Err NotFound
      <-> verifyDecryption e id a pr s = Err NotFound).
Proof.
  rewrite getResponse_eq, getEncryptedAnswer_eq, submitResponse_eq,
    verifyDecryption_eq.
  destruct (present s id); simpl.
  - split; [split; eauto|]. split; [split; eauto|].
    split; [done|].
    destruct (isVerified (response_at s id)); [done|].
    destruct (negb (FHE_checkSignatures _ _ _ _)); [done|].
    by destruct (abi_decode_uint32 a).
  - split; [split; intros [? ?]; done|]. split; [|done].
    split; [intros [? ?]; done|].
    destruct (FHE_fromExternal e h p) as [h'|]; [|done].
    destruct (negb (FHE_isInitialized e h')); [done|].
    destruct (negb (FHE_allowThis e h')); [done|].
    by destruct (negb (FHE_makePubliclyDecryptable e h')).
Qed.

(** X3. A verification that succeeds shows in [getResponse]: the response
    was readable and unverified before; afterwards the same metadata,
    respondent and timestamp are returned with the verified flag set and the
    decoded payload as plaintext; [getEncryptedAnswer] returns the same
    handle as before. *)
Theorem getters_after_verify
    (s s' : State) (e : Env) (id : string) (a p : bytes) :
  verifyDecryption e id a p s = Ok (tt, s') ->
  exists pm rs ts old v,
    abi_decode_uint32 a = Some v
    /\ getResponse s id = Ok (pm, rs, ts, false, old)
    /\ getResponse s' id = Ok (pm, rs, ts, true, v)
    /\ getEncryptedAnswer s' id = getEncryptedAnswer s id.
Proof.
  intros Hok. apply verifyDecryption_Ok in Hok as [Hp [Hv [_ [v [Hd ->]]]]].
  exists (publicMetadata (response_at s id)), (respondent (response_at s id)),
    (timestamp (response_at s id)), (decryptedAnswer (response_at s id)), v.
  split; [done|].
  rewrite !getResponse_eq, !getEncryptedAnswer_eq, present_after_verify, Hp.
  rewrite response_at_after_verify, decide_True by done. simpl.
  by rewrite Hv.
Qed.

(** X4. What a submission stored is never rewritten: for an id that is
    present, no transaction changes the ciphertext handle, the metadata, the
    respondent or the timestamp of its record, and [getEncryptedAnswer]
    keeps returning the same handle. *)
Theorem submission_data_write_once (s : State) (c : Call) (id : string) :
  present s id = true ->
  let r := response_at s id in
  let r' := response_at (transact s c) id in
  encryptedAnswer r' = encryptedAnswer r
  /\ publicMetadata r' = publicMetadata r
  /\ respondent r' = respondent r
  /\ timestamp r' = timestamp r
  /\ getEncryptedAnswer (transact s c) id = getEncryptedAnswer s id.
Proof.
  intros Hp r r'. subst r r'. rewrite !getEncryptedAnswer_eq.
  destruct (transact_outcome s c) as [err _ | e0 id0 h p m h' _ Hp0 _ _ _
                                     | e0 id0 a p v _ _ _ _ _ _]; [done | |].
  - rewrite present_after_submit, response_at_after_submit.
    case_decide; [congruence|done].
  - rewrite present_after_verify, response_at_after_verify.
    case_decide; [subst; done|done].
Qed.

(** X5. A transaction is local to its id: whatever [submitResponse] or
    [verifyDecryption] does for one id, the record and the getter results of
    every other id are as before. *)
Theorem other_responses_untouched (s : State) (c : Call) (id : string) :
  call_id c <> id ->
  response_at (transact s c) id = response_at s id
  /\ getResponse (transact s c) id = getResponse s id
  /\ getEncryptedAnswer (transact s c) id = getEncryptedAnswer s id.
Proof.
  intros Hne.
  assert (response_at (transact s c) id = response_at s id) as E.
  { destruct (transact_outcome s c) as [err _ | e0 id0 h p m h' -> _ _ _ _
                                       | e0 id0 a p v -> _ _ _ _ _]; [done | |].
    - rewrite response_at_after_submit. by rewrite decide_False.
    - rewrite response_at_after_verify. by rewrite decide_False. }
  split; [done|]. unfold getResponse, getEncryptedAnswer. by rewrite E.
Qed.

(** X6. No plaintext is readable before verification: in a reachable state,
    a response that [getResponse] reports as unverified has plaintext 0. *)
Theorem unverified_plaintext_is_zero
    (s : State) (id : string) (pm rs ts d : Z) :
  reachable s ->
  getResponse s id = Ok (pm, rs, ts, false, d) ->
  d = 0.
Proof.
  intros Hs%reachable_ledger_inv. rewrite getResponse_eq.
  destruct (present s id); [|done]. intros [= _ _ _ Hv <-].
  by apply Hs.
Qed.

(** ** What is stored was checked *)

(** X7. Nothing is listed that was not checked: after any sequence of
    transactions from deployment, the record of every listed id holds what
    one [submitResponse] call of that sequence stored: a handle that
    [FHE.fromExternal] returned for the call's input, that is initialized
    and for which both permission calls went through, with the call's
    sender, metadata and block timestamp. *)
Theorem listed_response_attested (cs : list Call) (id : string) :
  id ∈ getAllResponseIds (run cs initial_state) ->
  let r := response_at (run cs initial_state) id in
  exists e h p m,
    CallSubmit e id h p m ∈ cs
    /\ FHE_fromExternal e h p = Some (encryptedAnswer r)
    /\ FHE_isInitialized e (encryptedAnswer r) = true
    /\ FHE_allowThis e (encryptedAnswer r) = true
    /\ FHE_makePubliclyDecryptable e (encryptedAnswer r) = true
    /\ respondent r = msg_sender e
    /\ publicMetadata r = m
    /\ timestamp r = block_timestamp e.
Proof.
  unfold getAllResponseIds. cbv zeta.
  induction cs as [|c cs IH] using rev_ind.
  { intros H. by apply elem_of_nil in H. }
  rewrite run_snoc. set (s := run cs initial_state) in *.
  destruct (transact_outcome s c) as [err _ | e0 id0 h0 p0 m0 h' -> _ _ _ Hx
                                     | e0 id0 a0 p0 v -> _ _ _ _ _].
  - intros Hq. destruct (IH Hq) as [e [h [p [m [Hin H']]]]].
    exists e, h, p, m. split; [|done]. apply elem_of_app. by left.
  - simpl in Hx. apply submitResponse_Ok in Hx as [_ [h1 [Hf [Hi [Ha [Hm Heq]]]]]].
    assert (h1 = h') as ->.
    { apply (f_equal (fun st => encryptedAnswer (response_at st id0))) in Heq.
      rewrite !response_at_after_submit, !decide_True in Heq by done. done. }
    cbn [after_submit responseIds]. rewrite response_at_after_submit.
    case_decide as Hid.
    + subst id0. intros _. exists e0, h0, p0, m0. simpl.
      split; [|done]. apply elem_of_app. right. by apply list_elem_of_singleton.
    + rewrite elem_of_app, list_elem_of_singleton.
      intros [Hq|Hq]; [|congruence].
      destruct (IH Hq) as [e [h [p [m [Hin H']]]]].
      exists e, h, p, m. split; [|done]. apply elem_of_app. by left.
  - cbn [after_verify responseIds]. rewrite response_at_after_verify.
    intros Hq. destruct (IH Hq) as [e [h [p [m [Hin H']]]]].
    exists e, h, p, m. split; [apply elem_of_app; by left|].
    case_decide; [subst; done|done].
Qed.

(** X8. No plaintext without an accepted proof: after any sequence of
    transactions from deployment, a response that is verified was verified
    by a call of that sequence whose proof [FHE.checkSignatures] accepted
    for the handle the record holds and whose payload decodes to the
    plaintext the record holds. *)
Theorem verified_plaintext_attested (cs : list Call) (id : string) :
  isVerified (response_at (run cs initial_state) id) = true ->
  exists e a p,
    CallVerify e id a p ∈ cs
    /\ FHE_checkSignatures e
         [FHE_toBytes32 e (encryptedAnswer (response_at (run cs initial_state) id))]
         a p = true
    /\ abi_decode_uint32 a
       = Some (decryptedAnswer (response_at (run cs initial_state) id)).
Proof.
  induction cs as [|c cs IH] using rev_ind.
  { done. }
  rewrite run_snoc. set (s := run cs initial_state) in *.
  assert (ledger_inv s) as I by apply ledger_inv_run, ledger_inv_initial.
  destruct (transact_outcome s c) as [err _ | e0 id0 h p m h' _ Hp _ _ _
                                     | e0 id0 a p v -> Hp Hv Hc Hd _].
  - intros Hq. destruct (IH Hq) as [e1 [a1 [p1 [Hin H']]]].
    exists e1, a1, p1. split; [|done]. apply elem_of_app. by left.
  - rewrite response_at_after_submit. case_decide; [done|].
    intros Hq. destruct (IH Hq) as [e1 [a1 [p1 [Hin H']]]].
    exists e1, a1, p1. split; [|done]. apply elem_of_app. by left.
  - rewrite response_at_after_verify. case_decide as Hid.
    + subst id0. intros _. exists e0, a, p. simpl.
      split; [|done]. apply elem_of_app. right. by apply list_elem_of_singleton.
    + intros Hq. destruct (IH Hq) as [e1 [a1 [p1 [Hin H']]]].
      exists e1, a1, p1. split; [|done]. apply elem_of_app. by left.
Qed.

(** ** The event log *)

Lemma decrypted_events_snoc evs ev :
  decrypted_events (evs ++ [ev]) =
  (decrypted_events evs ++ decrypted_events [ev])%list.
Proof. unfold decrypted_events. apply omap_app. Qed.

Lemma submitted_events_snoc evs ev :
  submitted_events (evs ++ [ev]) =
  (submitted_events evs ++ submitted_events [ev])%list.
Proof. unfold submitted_events. apply omap_app. Qed.

(** X9. The log and the storage agree on verifications: in a reachable
    state, [ResponseDecrypted(id, v)] is in the log exactly when the record
    of [id] is verified with plaintext [v]. *)
Theorem decrypted_events_match_storage (s : State) (id : string) (v : Z) :
  reachable s ->
  ((id, v) ∈ decrypted_events (events s) <->
   isVerified (response_at s id) = true /\ decryptedAnswer (response_at s id) = v).
Proof.
  intros [cs ->]. revert id v. induction cs as [|c cs IH] using rev_ind; intros id v.
  { simpl. split; [intros H; by apply elem_of_nil in H | by intros [? _]]. }
  rewrite run_snoc. set (s := run cs initial_state) in *.
  assert (ledger_inv s) as I by apply ledger_inv_run, ledger_inv_initial.
  destruct (transact_outcome s c) as [err _ | e0 id0 h p m h' _ Hp _ _ _
                                     | e0 id0 a p v0 _ Hp Hv _ _ _].
  - apply IH.
  - cbn [after_submit events]. rewrite decrypted_events_snoc. simpl.
    rewrite app_nil_r, IH, response_at_after_submit.
    case_decide; [|done]. subst id0.
    destruct (unverified_when_absent s id I Hp) as [-> _]. simpl.
    split; by intros [? _].
  - cbn [after_verify events]. rewrite decrypted_events_snoc. simpl.
    rewrite elem_of_app, list_elem_of_singleton, IH, response_at_after_verify.
    case_decide as Hid.
    + subst id0. rewrite Hv. simpl. split.
      * intros [[? _]|[= ->]]; done.
      * intros [_ ->]. by right.
    + split; [|by left]. intros [H'|[= -> _]]; done.
Qed.

(** X10. The log and the id index agree on submissions: in every reachable
    state, the ids of the [ResponseSubmitted] events, in order, are the ids
    [getAllResponseIds] returns, in order. *)
Theorem submitted_events_match_ids (s : State) :
  reachable s ->
  map fst (submitted_events (events s)) = getAllResponseIds s.
Proof.
  unfold getAllResponseIds. intros [cs ->].
  induction cs as [|c cs IH] using rev_ind; [done|].
  rewrite run_snoc. set (s := run cs initial_state) in *.
  destruct (transact_outcome s c) as [err _ | e0 id0 h p m h' _ _ _ _ _
                                     | e0 id0 a p v _ _ _ _ _ _].
  - done.
  - cbn [after_submit events responseIds].
    by rewrite submitted_events_snoc, map_app, IH.
  - cbn [after_verify events responseIds].
    rewrite submitted_events_snoc. simpl. by rewrite app_nil_r.
Qed.

(** ** How transactions move the aggregates *)

Lemma verified_answers_of_ext (s s' : State) (ids : list string) :
  (forall id, id ∈ ids ->
     isVerified (response_at s' id) = isVerified (response_at s id)
     /\ decryptedAnswer (response_at s' id) = decryptedAnswer (response_at s id)) ->
  verified_answers_of s' ids = verified_answers_of s ids.
Proof.
  induction ids as [|x ids IH]; intros H; [done|].
  rewrite !verified_answers_of_cons.
  destruct (H x) as [-> ->]; [apply list_elem_of_here|].
  rewrite IH; [done|]. intros id Hid. apply H. by apply list_elem_of_further.
Qed.

Lemma verified_answers_of_app s ids1 ids2 :
  verified_answers_of s (ids1 ++ ids2)
  = (verified_answers_of s ids1 ++ verified_answers_of s ids2)%list.
Proof.
  unfold verified_answers_of. by rewrite map_app, List.filter_app, map_app.
Qed.

Lemma verified_answers_of_after_verify s id v ids :
  isVerified (response_at s id) = false ->
  verified_answers_of (after_verify id v s) ids
  ≡ₚ replicate (listings id ids) v ++ verified_answers_of s ids.
Proof.
  intros Hv. induction ids as [|x ids IH]; [done|].
  rewrite !verified_answers_of_cons, response_at_after_verify.
  unfold listings in *. cbn [List.filter].
  destruct (String.eqb_spec id x) as [->|Hne].
  - rewrite decide_True by done. rewrite Hv. simpl. by rewrite IH.
  - rewrite decide_False by done.
    destruct (isVerified (response_at s x)); [|done].
    rewrite IH. apply Permutation_middle.
Qed.

Lemma sum_answers_perm l1 l2 : l1 ≡ₚ l2 -> sum_answers l1 = sum_answers l2.
Proof. induction 1; simpl; lia. Qed.

Lemma sum_answers_replicate k v l :
  sum_answers (replicate k v ++ l) = Z.of_nat k * v + sum_answers l.
Proof. induction k as [|k IH]; simpl replicate; simpl sum_answers; lia. Qed.

(** X11. A verification that succeeds adds its plaintext to the verified
    answers once for every time its id is listed: the verified answers the
    aggregates run over are the former ones plus that many copies of the
    decoded value, so their count grows by the number of listings and their
    sum by that number times the value. *)
Theorem verify_adds_its_plaintext
    (s s' : State) (e : Env) (id : string) (a p : bytes) :
  verifyDecryption e id a p s = Ok (tt, s') ->
  exists v,
    abi_decode_uint32 a = Some v
    /\ verified_answers s'
       ≡ₚ replicate (listings id (responseIds s)) v ++ verified_answers s
    /\ length (verified_answers s')
       = (listings id (responseIds s) + length (verified_answers s))%nat
    /\ sum_answers (verified_answers s')
       = Z.of_nat (listings id (responseIds s)) * v + sum_answers (verified_answers s).
Proof.
  intros Hok. apply verifyDecryption_Ok in Hok as [Hp [Hv [_ [v [Hd ->]]]]].
  exists v. split; [done|].
  assert (verified_answers (after_verify id v s)
          ≡ₚ replicate (listings id (responseIds s)) v ++ verified_answers s) as E
    by exact (verified_answers_of_after_verify s id v (responseIds s) Hv).
  split; [done|]. split.
  - by rewrite E, length_app, length_replicate.
  - by rewrite (sum_answers_perm _ _ E), sum_answers_replicate.
Qed.

Lemma average_loop_ext (s s' : State) (ids : list string) total count :
  (forall id, id ∈ ids ->
     isVerified (response_at s' id) = isVerified (response_at s id)
     /\ decryptedAnswer (response_at s' id) = decryptedAnswer (response_at s id)) ->
  average_loop s' ids total count = average_loop s ids total count.
Proof.
  revert total count. induction ids as [|x ids IH]; intros total count H; [done|].
  cbn [average_loop]. destruct (H x) as [-> ->]; [apply list_elem_of_here|].
  assert (forall t c, average_loop s' ids t c = average_loop s ids t c) as IH'.
  { intros t c. apply IH. intros id Hid. apply H. by apply list_elem_of_further. }
  destruct (isVerified (response_at s x)); [|apply IH'].
  destruct (add32 total _); [|done]. simpl.
  destruct (add32 count 1); [|done]. simpl. apply IH'.
Qed.

Lemma max_loop_ext (s s' : State) (ids : list string) acc :
  (forall id, id ∈ ids ->
     isVerified (response_at s' id) = isVerified (response_at s id)
     /\ decryptedAnswer (response_at s' id) = decryptedAnswer (response_at s id)) ->
  max_loop s' ids acc = max_loop s ids acc.
Proof.
  revert acc. induction ids as [|x ids IH]; intros acc H; [done|].
  cbn [max_loop]. destruct (H x) as [-> ->]; [apply list_elem_of_here|].
  assert (forall m, max_loop s' ids m = max_loop s ids m) as IH'.
  { intros m. apply IH. intros id Hid. apply H. by apply list_elem_of_further. }
  by rewrite !IH'.
Qed.

Lemma count_loop_ext (s s' : State) (ids : list string) bs d :
  (forall id, id ∈ ids ->
     isVerified (response_at s' id) = isVerified (response_at s id)
     /\ decryptedAnswer (response_at s' id) = decryptedAnswer (response_at s id)) ->
  count_loop s' ids bs d = count_loop s ids bs d.
Proof.
  revert d. induction ids as [|x ids IH]; intros d H; [done|].
  cbn [count_loop]. destruct (H x) as [-> ->]; [apply list_elem_of_here|].
  assert (forall d0, count_loop s' ids bs d0 = count_loop s ids bs d0) as IH'.
  { intros d0. apply IH. intros id Hid. apply H. by apply list_elem_of_further. }
  destruct (isVerified (response_at s x)); [|apply IH'].
  destruct (div32 _ bs); [|done]. simpl.
  destruct (increment_at d _); [|done]. simpl. apply IH'.
Qed.

Lemma average_loop_snoc_unverified s ids id total count :
  isVerified (response_at s id) = false ->
  average_loop s (ids ++ [id]) total count = average_loop s ids total count.
Proof.
  intros Hv. revert total count.
  induction ids as [|x ids IH]; intros total count; simpl.
  { by rewrite Hv. }
  destruct (isVerified (response_at s x)); [|apply IH].
  destruct (add32 total _); [|done]. simpl.
  destruct (add32 count 1); [|done]. simpl. apply IH.
Qed.

Lemma max_loop_snoc_unverified s ids id acc :
  isVerified (response_at s id) = false ->
  max_loop s (ids ++ [id]) acc = max_loop s ids acc.
Proof.
  intros Hv. revert acc. induction ids as [|x ids IH]; intros acc; simpl.
  { by rewrite Hv. }
  by rewrite !IH.
Qed.

Lemma count_loop_snoc_unverified s ids id bs d :
  isVerified (response_at s id) = false ->
  count_loop s (ids ++ [id]) bs d = count_loop s ids bs d.
Proof.
  intros Hv. revert d. induction ids as [|x ids IH]; intros d; simpl.
  { by rewrite Hv. }
  destruct (isVerified (response_at s x)); [|apply IH].
  destruct (div32 _ bs); [|done]. simpl.
  destruct (increment_at d _); [|done]. simpl. apply IH.
Qed.

(** X12. Submissions do not move the aggregates: in a reachable state, a
    [submitResponse] transaction, whether it succeeds or reverts, leaves the
    results of [computeAverage] and of [computeDistribution] (for every
    bucket size) as they were, errors included. *)
Theorem submit_keeps_aggregates
    (s : State) (e : Env) (id : string) (h : Z) (p : bytes) (m bucketSize : Z) :
  reachable s ->
  let s' := transact s (CallSubmit e id h p m) in
  computeAverage s' = computeAverage s
  /\ computeDistribution s' bucketSize = computeDistribution s bucketSize.
Proof.
  intros I%reachable_ledger_inv s'. subst s'.
  destruct (transact_outcome s (CallSubmit e id h p m))
    as [err _ | e0 id0 h0 p0 m0 h' _ Hp _ _ _ | e0 id0 a p0 v Hc _ _ _ _ _];
    [done | | done].
  destruct (unverified_when_absent s id0 I Hp) as [Hv Hz].
  set (s' := after_submit e0 id0 h' m0 s).
  assert (isVerified (response_at s' id0) = false) as Hv'.
  { unfold s'. by rewrite response_at_after_submit, decide_True. }
  assert (forall x, x ∈ responseIds s ->
            isVerified (response_at s' x) = isVerified (response_at s x)
            /\ decryptedAnswer (response_at s' x) = decryptedAnswer (response_at s x))
    as Hext.
  { intros x _. unfold s'. rewrite response_at_after_submit.
    case_decide; [subst; by rewrite Hv, Hz|done]. }
  unfold computeAverage, computeDistribution.
  change (responseIds s') with (responseIds s ++ [id0])%list.
  rewrite average_loop_snoc_unverified, max_loop_snoc_unverified by done.
  rewrite (average_loop_ext s s'), (max_loop_ext s s') by done.
  split; [done|].
  destruct (div32 _ bucketSize); [|done]. simpl.
  destruct (add32 _ 1); [|done]. simpl.
  rewrite count_loop_snoc_unverified by done. by apply count_loop_ext.
Qed.

(** X13. The average lies among the answers: when [computeAverage] returns
    a value, it is between any lower and upper bound of the verified
    plaintexts; in particular it is a [uint32]. *)
Theorem average_within_bounds (s : State) (lo hi v : Z) :
  uint32_answers s = true ->
  Forall (fun x => lo <= x <= hi) (verified_answers s) ->
  computeAverage s = Ok v ->
  lo <= v <= hi /\ 0 <= v <= uint32_max.
Proof.
  intros Hu%uint32_answers_verified Hb. rewrite computeAverage_spec by done.
  destruct (_ && _); [|done].
  destruct (verified_answers s) as [|x l] eqn:E; [done|].
  intros [= <-]. unfold spec_average. rewrite E.
  set (n := Z.of_nat (length (x :: l))).
  assert (0 < n) as Hn by (unfold n; simpl; lia).
  assert (forall a b k, Forall (fun y => a <= y <= b) k ->
            a * Z.of_nat (length k) <= sum_answers k <= b * Z.of_nat (length k))
    as Hsum.
  { intros a b k Hk. induction Hk as [|y k Hy Hk IH]; simpl length; simpl sum_answers;
      [lia|]. nia. }
  pose proof (Hsum _ _ _ Hb) as H1. pose proof (Hsum _ _ _ Hu) as H2.
  fold n in H1, H2.
  repeat split.
  - apply Z.div_le_lower_bound; lia.
  - apply Z.div_le_upper_bound; lia.
  - apply Z.div_le_lower_bound; lia.
  - apply Z.div_le_upper_bound; lia.
Qed.

(** ** The distribution, whenever it is returned *)

Lemma count_loop_sound s ids bs d d' :
  0 < bs ->
  Forall (fun x => 0 <= x <= uint32_max) (verified_answers_of s ids) ->
  count_loop s ids bs d = Ok d' ->
  length d' = length d
  /\ forall i c, d !! i = Some c ->
                 d' !! i = Some (c + bucket_count bs (verified_answers_of s ids) i).
Proof.
  intros Hbs. revert d. induction ids as [|id ids IH]; intros d Hx.
  { intros [= <-]. split; [done|]. intros i c Hi.
    unfold verified_answers_of, bucket_count; simpl. by rewrite Z.add_0_r. }
  rewrite verified_answers_of_cons in *. cbn [count_loop].
  destruct (isVerified (response_at s id)); [|by apply IH].
  set (x := decryptedAnswer (response_at s id)) in *.
  inversion Hx as [|x0 l Hx0 Hl]; subst.
  unfold div32. destruct (Z.eqb_spec bs 0); [lia|]. simpl.
  assert (0 <= x / bs) as Hq by (apply Z.div_pos; lia).
  unfold increment_at.
  destruct (d !! Z.to_nat (x / bs)) as [c|] eqn:Hlk; [|done].
  unfold add32. destruct (Z.leb_spec (c + 1) uint32_max); [|done]. simpl.
  intros Hok. destruct (IH _ Hl Hok) as [Hlen Hd'].
  rewrite length_insert in Hlen. split; [done|].
  intros i c' Hi. rewrite bucket_count_cons.
  destruct (decide (i = Z.to_nat (x / bs))) as [->|Hne].
  - rewrite Z2Nat.id, Z.eqb_refl by done.
    assert (c' = c) as -> by congruence.
    rewrite (Hd' _ (c + 1)).
    + f_equal. lia.
    + apply list_lookup_insert_eq. by eapply lookup_lt_Some.
  - destruct (Z.eqb_spec (x / bs) (Z.of_nat i)); [lia|].
    rewrite (Hd' _ c') by (by rewrite list_lookup_insert_ne).
    f_equal.
Qed.

Lemma sum_map_add (f g : nat -> Z) (l : list nat) :
  sum_answers (map (fun i => f i + g i) l)
  = sum_answers (map f l) + sum_answers (map g l).
Proof. induction l; simpl; lia. Qed.

Lemma sum_indicator (k : Z) (j n : nat) :
  sum_answers (map (fun i => if k =? Z.of_nat i then 1 else 0) (seq j n))
  = if (Z.of_nat j <=? k) && (k <? Z.of_nat (j + n)) then 1 else 0.
Proof.
  revert j. induction n as [|n IH]; intros j; simpl.
  { destruct (Z.leb_spec (Z.of_nat j) k), (Z.ltb_spec k (Z.of_nat (j + 0))); simpl; lia. }
  rewrite IH.
  destruct (Z.eqb_spec k (Z.of_nat j)),
           (Z.leb_spec (Z.of_nat (S j)) k), (Z.ltb_spec k (Z.of_nat (S j + n))),
           (Z.leb_spec (Z.of_nat j) k), (Z.ltb_spec k (Z.of_nat (j + S n)));
    simpl; lia.
Qed.

Lemma histogram_total bs (l : list Z) (n : nat) :
  Forall (fun a => 0 <= a / bs < Z.of_nat n) l ->
  sum_answers (map (bucket_count bs l) (seq 0 n)) = Z.of_nat (length l).
Proof.
  induction 1 as [|a l Ha Hl IH].
  { unfold bucket_count; simpl. induction (seq 0 n); simpl; lia. }
  rewrite (map_ext _ (fun i => (if a / bs =? Z.of_nat i then 1 else 0)
                               + bucket_count bs l i))
    by (intros i; apply bucket_count_cons).
  rewrite sum_map_add, IH, sum_indicator. simpl length.
  destruct (Z.leb_spec (Z.of_nat 0) (a / bs)), (Z.ltb_spec (a / bs) (Z.of_nat (0 + n)));
    simpl; lia.
Qed.

Lemma computeDistribution_sound s bs d :
  uint32_answers s = true ->
  0 <= bs ->
  computeDistribution s bs = Ok d ->
  0 < bs /\ d = spec_distribution s bs.
Proof.
  intros Hu%uint32_answers_verified Hbs. unfold computeDistribution.
  rewrite max_loop_spec by done. fold (verified_answers s).
  pose proof (max_answer_nonneg (verified_answers s)) as Hm.
  rewrite Z.max_r by done.
  unfold div32. destruct (Z.eqb_spec bs 0); [done|]. simpl.
  set (q := max_answer (verified_answers s) / bs).
  assert (0 <= q) as Hq by (apply Z.div_pos; lia).
  unfold add32. destruct (Z.leb_spec (q + 1) uint32_max); [|done]. simpl.
  intros Hok. assert (0 < bs) as Hpos by lia. split; [done|].
  destruct (count_loop_sound _ _ _ _ _ Hpos Hu Hok) as [Hl Hd].
  rewrite length_replicate in Hl. fold (verified_answers s) in Hd.
  apply list_eq. intros i. destruct (decide (i < Z.to_nat (q + 1))%nat) as [Hi|Hi].
  - rewrite spec_distribution_lookup by done.
    by rewrite (Hd i 0) by (by apply lookup_replicate_2).
  - rewrite !lookup_ge_None_2; [done | |lia].
    unfold spec_distribution. rewrite length_map, length_seq. fold q. lia.
Qed.

(** X14. Whenever [computeDistribution] returns, what it returns is the
    histogram of the verified plaintexts: the bucket size was positive,
    entry [i] counts the plaintexts with [floor(a / bucketSize) = i], and
    the entries add up to the number of verified responses. *)
Theorem distribution_is_histogram (s : State) (bucketSize : Z) (d : list Z) :
  uint32_answers s = true ->
  0 <= bucketSize ->
  computeDistribution s bucketSize = Ok d ->
  0 < bucketSize
  /\ d = spec_distribution s bucketSize
  /\ (forall i, (i < length d)%nat ->
        d !! i = Some (bucket_count bucketSize (verified_answers s) i))
  /\ sum_answers d = Z.of_nat (length (verified_answers s)).
Proof.
  intros Hu Hbs Hok.
  destruct (computeDistribution_sound s bucketSize d Hu Hbs Hok) as [Hpos ->].
  apply uint32_answers_verified in Hu.
  pose proof (max_answer_nonneg (verified_answers s)) as Hm.
  assert (0 <= max_answer (verified_answers s) / bucketSize)
    by (apply Z.div_pos; lia).
  assert (length (spec_distribution s bucketSize)
          = Z.to_nat (max_answer (verified_answers s) / bucketSize + 1)) as Hl.
  { unfold spec_distribution. by rewrite length_map, length_seq. }
  split; [done|]. split; [done|]. split.
  - intros i Hi. apply spec_distribution_lookup. by rewrite <- Hl.
  - unfold spec_distribution. apply histogram_total.
    apply Forall_forall. intros x Hx.
    pose proof (max_answer_ge _ _ Hx) as Hle.
    rewrite Forall_forall in Hu. specialize (Hu _ Hx).
    assert (0 <= x / bucketSize) by (apply Z.div_pos; lia).
    assert (x / bucketSize <= max_answer (verified_answers s) / bucketSize)
      by (apply Z.div_le_mono; lia).
    lia.
Qed.

Lemma max_answer_elem l :
  l <> [] -> Forall (fun x => 0 <= x <= uint32_max) l -> max_answer l ∈ l.
Proof.
  induction l as [|x l IH]; [done|]. intros _ H.
  inversion H as [|? ? Hx Hl]; subst. simpl.
  destruct l as [|y l].
  { simpl. rewrite Z.max_l by lia. apply list_elem_of_here. }
  destruct (Z.max_spec x (max_answer (y :: l))) as [[_ ->]|[_ ->]].
  - apply list_elem_of_further. by apply IH.
  - apply list_elem_of_here.
Qed.

Lemma bucket_count_elem bs l x :
  x ∈ l -> 0 <= x / bs -> 1 <= bucket_count bs l (Z.to_nat (x / bs)).
Proof.
  intros Hin Hq. induction l as [|y l IH]; [by apply elem_of_nil in Hin|].
  rewrite bucket_count_cons.
  pose proof (bucket_count_range bs l (Z.to_nat (x / bs))).
  apply elem_of_cons in Hin as [->|Hin].
  - rewrite Z2Nat.id, Z.eqb_refl by done. lia.
  - specialize (IH Hin). destruct (_ =? _); lia.
Qed.

(** X15. The distribution stops at the largest answer: whenever
    [computeDistribution] returns and some response is verified, the last
    bucket of the result is not empty; and with no verified response the
    result is the single bucket [0]. *)
Theorem distribution_last_bucket (s : State) (bucketSize : Z) (d : list Z) :
  uint32_answers s = true ->
  0 <= bucketSize ->
  computeDistribution s bucketSize = Ok d ->
  match verified_answers s with
  | [] => d = [0]
  | _ :: _ => exists c, last d = Some c /\ 1 <= c
  end.
Proof.
  intros Hu Hbs Hok.
  destruct (computeDistribution_sound s bucketSize d Hu Hbs Hok) as [Hpos ->].
  apply uint32_answers_verified in Hu.
  destruct (verified_answers s) as [|x l] eqn:E.
  { unfold spec_distribution. rewrite E. reflexivity. }
  rewrite <- E in *.
  assert (max_answer (verified_answers s) ∈ verified_answers s) as Hin.
  { apply max_answer_elem; [by rewrite E | done]. }
  pose proof (max_answer_nonneg (verified_answers s)) as Hm.
  set (q := max_answer (verified_answers s) / bucketSize) in *.
  assert (0 <= q) as Hq by (apply Z.div_pos; lia).
  exists (bucket_count bucketSize (verified_answers s) (Z.to_nat q)). split.
  - rewrite last_lookup.
    assert (length (spec_distribution s bucketSize) = Z.to_nat (q + 1)) as ->.
    { unfold spec_distribution. by rewrite length_map, length_seq. }
    replace (Init.Nat.pred (Z.to_nat (q + 1))) with (Z.to_nat q) by lia.
    apply spec_distribution_lookup. fold q. lia.
  - by apply bucket_count_elem.
Qed.

(** ** The clear-answer payload *)

Lemma byte_of_small (x : Z) :
  0 <= x < 256 ->
  Z.of_N (Byte.to_N (match Byte.of_N (Z.to_N x) with
                     | Some b => b
                     | None => Byte.x00
                     end)) = x.
Proof.
  intros Hx. destruct (Byte.of_N (Z.to_N x)) as [b|] eqn:E.
  - apply Stdlib.Strings.Byte.to_of_N in E. lia.
  - apply Stdlib.Strings.Byte.of_N_None_iff in E. lia.
Qed.

Lemma be_value_encoded (v : Z) :
  0 <= v <= uint32_max -> be_value (abi_encode_uint32 v) = v.
Proof.
  intros Hv. unfold be_value, abi_encode_uint32, uint32_max in *. simpl.
  rewrite !byte_of_small by (apply Z.mod_pos_bound; lia).
  change (256 ^ 3) with 16777216. change (256 ^ 2) with 65536.
  change (256 ^ 1) with 256. change (256 ^ 0) with 1.
  Z.div_mod_to_equations. lia.
Qed.

(** X16. The payload encoding round-trips: the 32-byte big-endian word of a
    [uint32] decodes to that value, whatever bytes follow it; and a payload
    shorter than 32 bytes does not decode. *)
Theorem abi_uint32_roundtrip (v : Z) (extra short : bytes) :
  0 <= v <= uint32_max ->
  (length short < 32)%nat ->
  abi_decode_uint32 (abi_encode_uint32 v ++ extra) = Some v
  /\ abi_decode_uint32 short = None.
Proof.
  intros Hv Hshort. split.
  - unfold abi_decode_uint32.
    assert (length (abi_encode_uint32 v) = 32%nat) as Hl by reflexivity.
    rewrite length_app, Hl.
    destruct (Nat.ltb_spec (32 + length extra) 32); [lia|].
    rewrite (take_app_length' _ extra 32) by done.
    cbv zeta. rewrite be_value_encoded by done.
    destruct (Z.leb_spec v uint32_max); [done|lia].
  - unfold abi_decode_uint32. by destruct (Nat.ltb_spec (length short) 32); [|lia].
Qed.

(** X17. A malformed payload stores nothing: for a present, unverified
    response and an accepted proof, a payload that is shorter than 32 bytes,
    or whose first word is above [type(uint32).max], makes
    [verifyDecryption] revert in [abi.decode], and the transaction leaves
    the state as it was. *)
Theorem verify_rejects_malformed_payload
    (s : State) (e : Env) (id : string) (a p : bytes) :
  present s id = true ->
  isVerified (response_at s id) = false ->
  FHE_checkSignatures e
    [FHE_toBytes32 e (encryptedAnswer (response_at s id))] a p = true ->
  (length a < 32)%nat \/ uint32_max < be_value (firstn 32 a) ->
  verifyDecryption e id a p s = Err AbiDecodeRevert
  /\ transact s (CallVerify e id a p) = s.
Proof.
  intros Hp Hv Hc Hbad.
  assert (abi_decode_uint32 a = None) as Hd.
  { unfold abi_decode_uint32. destruct (Nat.ltb_spec (length a) 32); [done|].
    cbv zeta. destruct (Z.leb_spec (be_value (firstn 32 a)) uint32_max); [lia|done]. }
  assert (verifyDecryption e id a p s = Err AbiDecodeRevert) as E.
  { by rewrite verifyDecryption_eq, Hp, Hv, Hc, Hd. }
  split; [done|]. unfold transact; simpl. by rewrite E.
Qed.

End Properties.

(** * The properties at work on sample runs *)

Section Samples.

#[local] Existing Instance sample_reading.

Lemma verified_once_witness :
  reachable survey_3_5_10 /\
  let s' := transact survey_3_5_10 (sample_verify "r" 8) in
  isVerified (response_at s' "r") = true /\ decryptedAnswer (response_at s' "r") = 3.
Proof.
  assert (reachable survey_3_5_10) as Hr by (eexists; reflexivity).
  split; [exact Hr|].
  exact (proj1 (verified_once_plaintext_write_once
                  survey_3_5_10 (sample_verify "r" 8) "r" Hr) eq_refl).
Defined.

Lemma second_verify_witness :
  reachable survey_3_5_10 /\
  isVerified (response_at survey_3_5_10 "rx") = true /\
  verifyDecryption (sample_env 9 1700000200) "rx" (abi_encode_uint32 6) sample_proof
    survey_3_5_10 = Err AlreadyVerified.
Proof.
  assert (reachable survey_3_5_10) as Hr by (eexists; reflexivity).
  split; [exact Hr|]. split; [reflexivity|].
  exact (proj1 (second_verify_rejected survey_3_5_10 "rx"
                  (sample_env 9 1700000200) (abi_encode_uint32 6) sample_proof
                  Hr eq_refl)).
Defined.


(** With a presence test that is always empty, the second submission of an
    id goes through: the id is listed twice over one record. *)
Example second_submit_under_empty_reading :
  let s1 := run (reading := empty_reading) [sample_submit 5 "r"] initial_state in
  let s2 := transact (reading := empty_reading) s1 (sample_submit 6 "r") in
  responseIds s2 = ["r"; "r"]
  /\ size (surveyResponses s2) = 1%nat
  /\ respondent (response_at s2 "r") = 6.
Proof. vm_compute. done. Qed.

(** With a presence test that is never empty, no submission goes through,
    and a verification of an id nobody submitted stores a plaintext. *)
Example verify_under_full_reading :
  submitResponse (reading := full_reading) (sample_env 5 1700000000) "r" 77
    sample_proof 1 initial_state = Err DuplicateId
  /\ let s1 := transact (reading := full_reading) initial_state (sample_verify "q" 7) in
     responseIds s1 = []
     /\ size (surveyResponses s1) = 1%nat
     /\ getResponse (reading := full_reading) s1 "q" = Ok (0, 0, 0, true, 7).
Proof. vm_compute. done. Qed.



Lemma average_of_verified_witness :
  uint32_answers survey_3_5_10 = true /\
  verified_answers survey_3_5_10 = [3; 5; 10] /\
  computeAverage survey_3_5_10 = Ok 6 /\
  computeAverage initial_state = Err NoVerifiedData.
Proof.
  split; [reflexivity|]. split; [vm_compute; reflexivity|]. split.
  - eapply eq_trans.
    + apply (average_of_verified survey_3_5_10); [reflexivity | |];
        apply Z.leb_le; vm_compute; reflexivity.
    + vm_compute. reflexivity.
  - apply (average_of_verified initial_state); [reflexivity | |];
      apply Z.leb_le; vm_compute; reflexivity.
Defined.

(** C5 as stated fails: with the verified plaintexts 4294967295 and 1 the
    sum is 2^32 and the call reverts instead of returning 2^31. *)
Lemma average_overflow_counterexample :
  reachable survey_overflow /\
  verified_answers survey_overflow = [4294967295; 1] /\
  spec_average survey_overflow = 2147483648 /\
  computeAverage survey_overflow = Err (Panic PANIC_OVERFLOW) /\
  computeAverage survey_overflow <> Ok (spec_average survey_overflow).
Proof.
  split; [eexists; reflexivity|].
  split; [vm_compute; reflexivity|].
  split; [vm_compute; reflexivity|].
  split; [vm_compute; reflexivity|].
  vm_compute. discriminate.
Qed.

Lemma average_reverts_witness :
  uint32_answers survey_overflow = true /\
  uint32_max < sum_answers (verified_answers survey_overflow) /\
  computeAverage survey_overflow = Err (Panic PANIC_OVERFLOW).
Proof.
  assert (uint32_max < sum_answers (verified_answers survey_overflow)) as Hs.
  { apply Z.ltb_lt. vm_compute. reflexivity. }
  split; [reflexivity|]. split; [exact Hs|].
  exact (proj1 (average_reverts_on_sum_overflow survey_overflow eq_refl) Hs).
Defined.

Lemma distribution_of_verified_witness :
  uint32_answers survey_0_4_5_9_12 = true /\
  verified_answers survey_0_4_5_9_12 = [0; 4; 5; 9; 12] /\
  computeDistribution survey_0_4_5_9_12 5 = Ok [2; 2; 1].
Proof.
  split; [reflexivity|]. split; [vm_compute; reflexivity|].
  destruct (distribution_of_verified survey_0_4_5_9_12 5) as [d [E [Hd _]]];
    [reflexivity | lia | apply Z.leb_le; vm_compute; reflexivity
     | apply Z.leb_le; vm_compute; reflexivity |].
  rewrite E, Hd. vm_compute. reflexivity.
Defined.

(** C6 as stated fails: with the one verified plaintext 4294967295 and
    bucket size 1 the bucket count 2^32 does not fit and the call reverts. *)
Lemma distribution_overflow_counterexample :
  reachable survey_max /\
  verified_answers survey_max = [4294967295] /\
  0 < 1 /\
  computeDistribution survey_max 1 = Err (Panic PANIC_OVERFLOW) /\
  forall d, computeDistribution survey_max 1 <> Ok d.
Proof.
  assert (computeDistribution survey_max 1 = Err (Panic PANIC_OVERFLOW)) as E
    by (vm_compute; reflexivity).
  split; [eexists; reflexivity|].
  split; [vm_compute; reflexivity|].
  split; [lia|]. split; [exact E|].
  intros d. rewrite E. discriminate.
Qed.

Lemma distribution_without_verified_witness :
  0 < 5 /\ verified_answers survey_one = [] /\
  computeDistribution survey_one 5 = Ok [0] /\
  computeAverage survey_one = Err NoVerifiedData.
Proof.
  assert (verified_answers survey_one = []) as Hn by (vm_compute; reflexivity).
  split; [lia|]. split; [exact Hn|].
  apply (distribution_without_verified survey_one 5); [lia | exact Hn].
Defined.

Lemma getters_after_submit_witness :
  submitResponse (sample_env 5 1700000000) "r" 77 sample_proof 1 initial_state
  = Ok (tt, survey_one)
  /\ getResponse survey_one "r" = Ok (1, 5, 1700000000, false, 0)
  /\ forall r, getResponse survey_one "r" = Ok r ->
               r = (1, 5, 1700000000, false, 0).
Proof.
  assert (submitResponse (sample_env 5 1700000000) "r" 77 sample_proof 1 initial_state
          = Ok (tt, survey_one)) as Hok by (vm_compute; reflexivity).
  split; [exact Hok|]. split; [reflexivity|].
  exact (proj1 (getters_after_submit initial_state survey_one
                  (sample_env 5 1700000000) "r" 77 sample_proof 1 Hok)).
Defined.

Lemma listed_response_attested_witness :
  "a" ∈ getAllResponseIds (run sample_calls initial_state) /\
  exists e h p m,
    CallSubmit e "a" h p m ∈ sample_calls /\
    respondent (response_at (run sample_calls initial_state) "a") = msg_sender e.
Proof.
  assert ("a" ∈ getAllResponseIds (run sample_calls initial_state)) as Hin.
  { assert (getAllResponseIds (run sample_calls initial_state) = ["b"; "a"; "c"]) as ->
      by (vm_compute; reflexivity).
    apply list_elem_of_further, list_elem_of_here. }
  split; [exact Hin|].
  destruct (listed_response_attested sample_calls "a" Hin)
    as [e [h [p [m [Hc [_ [_ [_ [_ [Hr _]]]]]]]]]].
  exists e, h, p, m. split; [exact Hc | exact Hr].
Defined.

Lemma submitted_events_witness :
  reachable (run sample_calls initial_state) /\
  map fst (submitted_events (events (run sample_calls initial_state)))
  = ["b"; "a"; "c"].
Proof.
  assert (reachable (run sample_calls initial_state)) as Hr by (eexists; reflexivity).
  split; [exact Hr|].
  rewrite (submitted_events_match_ids _ Hr). reflexivity.
Defined.

Lemma verify_adds_its_plaintext_witness :
  verifyDecryption (sample_env 9 1700000400) "r" (abi_encode_uint32 7) sample_proof
    survey_one = Ok (tt, after_verify "r" 7 survey_one) /\
  exists v, abi_decode_uint32 (abi_encode_uint32 7) = Some v /\
            sum_answers (verified_answers (after_verify "r" 7 survey_one))
            = Z.of_nat (listings "r" (responseIds survey_one)) * v
              + sum_answers (verified_answers survey_one).
Proof.
  assert (verifyDecryption (sample_env 9 1700000400) "r" (abi_encode_uint32 7)
            sample_proof survey_one = Ok (tt, after_verify "r" 7 survey_one)) as E
    by (vm_compute; reflexivity).
  split; [exact E|].
  destruct (verify_adds_its_plaintext survey_one (after_verify "r" 7 survey_one)
              (sample_env 9 1700000400) "r" (abi_encode_uint32 7) sample_proof E)
    as [v [Hd [_ [_ Hsum]]]].
  exists v. split; [exact Hd | exact Hsum].
Defined.

Lemma getters_after_verify_witness :
  verifyDecryption (sample_env 9 1700000400) "r" (abi_encode_uint32 7) sample_proof
    survey_one = Ok (tt, after_verify "r" 7 survey_one) /\
  getResponse (after_verify "r" 7 survey_one) "r" = Ok (1, 5, 1700000000, true, 7).
Proof.
  assert (verifyDecryption (sample_env 9 1700000400) "r" (abi_encode_uint32 7)
            sample_proof survey_one = Ok (tt, after_verify "r" 7 survey_one)) as E
    by (vm_compute; reflexivity).
  split; [exact E|].
  destruct (getters_after_verify _ _ _ _ _ _ E)
    as [pm [rs [ts [old [v [Hd [Hb [Ha _]]]]]]]].
  vm_compute in Hd. vm_compute in Hb. rewrite Ha. congruence.
Defined.

Lemma submission_data_write_once_witness :
  present survey_one "r" = true /\
  getEncryptedAnswer (transact survey_one (sample_submit 8 "r")) "r" = Ok 77 /\
  getEncryptedAnswer (transact survey_one (sample_verify "r" 3)) "r" = Ok 77.
Proof.
  split; [reflexivity|]. split.
  - rewrite (proj2 (proj2 (proj2 (proj2 (submission_data_write_once (reading := sample_reading) survey_one
               (sample_submit 8 "r") "r" eq_refl))))). reflexivity.
  - rewrite (proj2 (proj2 (proj2 (proj2 (submission_data_write_once (reading := sample_reading) survey_one
               (sample_verify "r" 3) "r" eq_refl))))). reflexivity.
Defined.

Lemma other_responses_untouched_witness :
  call_id (sample_submit 6 "rx") <> "r" /\
  getResponse (transact survey_one (sample_submit 6 "rx")) "r"
  = getResponse survey_one "r".
Proof.
  split; [discriminate|].
  apply (other_responses_untouched survey_one (sample_submit 6 "rx") "r").
  discriminate.
Defined.

Lemma unverified_plaintext_witness :
  reachable survey_one /\
  getResponse survey_one "r" = Ok (1, 5, 1700000000, false, 0) /\
  decryptedAnswer (response_at survey_one "r") = 0.
Proof.
  assert (reachable survey_one) as Hr by (eexists; reflexivity).
  split; [exact Hr|]. split; [reflexivity|].
  apply (unverified_plaintext_is_zero survey_one "r" 1 5 1700000000
           (decryptedAnswer (response_at survey_one "r")) Hr).
  reflexivity.
Defined.

Lemma verified_plaintext_attested_witness :
  isVerified (response_at (run sample_calls initial_state) "a") = true /\
  exists e a p,
    CallVerify e "a" a p ∈ sample_calls /\
    abi_decode_uint32 a = Some 4.
Proof.
  split; [reflexivity|].
  destruct (verified_plaintext_attested (reading := sample_reading) sample_calls "a" eq_refl)
    as [e [a [p [Hin [_ Hd]]]]].
  exists e, a, p. split; [exact Hin | exact Hd].
Defined.

Lemma decrypted_events_witness :
  reachable (run sample_calls initial_state) /\
  isVerified (response_at (run sample_calls initial_state) "b") = true /\
  ("b", 2) ∈ decrypted_events (events (run sample_calls initial_state)).
Proof.
  assert (reachable (run sample_calls initial_state)) as Hr by (eexists; reflexivity).
  split; [exact Hr|]. split; [reflexivity|].
  apply (proj2 (decrypted_events_match_storage _ "b" 2 Hr)).
  split; reflexivity.
Defined.

Lemma submit_keeps_aggregates_witness :
  reachable survey_3_5_10 /\
  computeAverage (transact survey_3_5_10 (sample_submit 7 "new")) = Ok 6.
Proof.
  assert (reachable survey_3_5_10) as Hr by (eexists; reflexivity).
  split; [exact Hr|].
  eapply eq_trans.
  - exact (proj1 (submit_keeps_aggregates survey_3_5_10 (sample_env 7 1700000000)
                    "new" 77 sample_proof 1 5 Hr)).
  - vm_compute. reflexivity.
Defined.

Lemma average_within_bounds_witness :
  uint32_answers survey_3_5_10 = true /\
  Forall (fun x => 3 <= x <= 10) (verified_answers survey_3_5_10) /\
  computeAverage survey_3_5_10 = Ok 6 /\ 3 <= 6 <= 10.
Proof.
  assert (Forall (fun x => 3 <= x <= 10) (verified_answers survey_3_5_10)) as Hb.
  { change (verified_answers survey_3_5_10) with [3; 5; 10].
    repeat constructor; lia. }
  assert (computeAverage survey_3_5_10 = Ok 6) as E by (vm_compute; reflexivity).
  split; [reflexivity|]. split; [exact Hb|]. split; [exact E|].
  exact (proj1 (average_within_bounds survey_3_5_10 3 10 6 eq_refl Hb E)).
Defined.

Lemma distribution_is_histogram_witness :
  uint32_answers survey_0_4_5_9_12 = true /\ 0 <= 5 /\
  computeDistribution survey_0_4_5_9_12 5 = Ok [2; 2; 1] /\
  sum_answers [2; 2; 1] = Z.of_nat (length (verified_answers survey_0_4_5_9_12)).
Proof.
  assert (computeDistribution survey_0_4_5_9_12 5 = Ok [2; 2; 1]) as E
    by (vm_compute; reflexivity).
  split; [reflexivity|]. split; [lia|]. split; [exact E|].
  assert (0 <= 5) as H5 by lia.
  exact (proj2 (proj2 (proj2 (distribution_is_histogram survey_0_4_5_9_12 5 [2; 2; 1]
                                eq_refl H5 E)))).
Defined.

Lemma distribution_last_bucket_witness :
  uint32_answers survey_0_4_5_9_12 = true /\ 0 <= 5 /\
  computeDistribution survey_0_4_5_9_12 5 = Ok [2; 2; 1] /\
  exists c, last [2; 2; 1] = Some c /\ 1 <= c.
Proof.
  assert (computeDistribution survey_0_4_5_9_12 5 = Ok [2; 2; 1]) as E
    by (vm_compute; reflexivity).
  split; [reflexivity|]. split; [lia|]. split; [exact E|].
  assert (0 <= 5) as H5 by lia.
  exact (distribution_last_bucket survey_0_4_5_9_12 5 [2; 2; 1] eq_refl H5 E).
Defined.

Lemma abi_uint32_roundtrip_witness :
  0 <= 4294967295 <= uint32_max /\
  abi_decode_uint32 (abi_encode_uint32 4294967295 ++ [Byte.x2a]) = Some 4294967295.
Proof.
  assert (0 <= 4294967295 <= uint32_max) as Hv by (unfold uint32_max; lia).
  split; [exact Hv|].
  apply (abi_uint32_roundtrip 4294967295 [Byte.x2a] [] Hv). simpl. lia.
Defined.

Lemma verify_rejects_malformed_witness :
  present survey_one "r" = true /\
  verifyDecryption (sample_env 9 1700000400) "r" [Byte.x07] sample_proof survey_one
  = Err AbiDecodeRevert.
Proof.
  split; [reflexivity|].
  apply (verify_rejects_malformed_payload survey_one (sample_env 9 1700000400)
           "r" [Byte.x07] sample_proof); [reflexivity | reflexivity | reflexivity |].
  left. simpl. lia.
Defined.

End Samples.
